(** * Clue-less: the game engine of [clueless/models.py]

    A shallow embedding of the Django models of the Clue-less board game
    and of the methods that make up its rules engine, followed by the
    properties of that engine.

    Modelling conventions.
    - The database is a record [World] of tables; a table is the list of
      its rows in primary-key (insertion) order.  A foreign key to a row
      that the engine mutates (Player, Turn, Game, DetectiveSheet) is the
      key of that row and is resolved by a query; a foreign key into the
      read-only registries (cards, spaces) is the referenced row itself.
    - A Python object is identified with the row it was loaded from: every
      request loads its objects afresh, so [obj.save()] is the update of
      the row with the object's key (or an insert when there is none).
    - One game per world; players, turns and sheets carry the key of the
      game they belong to, so rows of other games can be present.
    - A method is a computation [M A]: it reads and writes the world and
      either returns or raises.  Django does not roll back on an exception,
      so the world reached when the exception is raised is kept.
    - An assignment to an attribute of an object changes the object in
      memory only; the world changes at the [save()] that follows, and an
      exception raised before that [save()] leaves the row as it was.
    - A triple is saved into the table of [WhoWhatWhere] rows, a case file
      into that table and into the table of [CaseFile] rows.
    - [random] is made explicit: [createRandom] receives its three draws,
      [startGame] receives the shuffle. *)

From Stdlib Require Import ZArith String List Bool Arith Lia Permutation.
Import ListNotations.

Set Implicit Arguments.

(** ** Constants *)

Definition NOT_STARTED : Z := 0.
Definition STARTED : Z := 1.

Definition LOST : Z := -1.
Definition NEITHER : Z := 0.
Definition WON : Z := 1.

(** ** Rows *)

Record User := mkUser { user_id : nat; username : string }.

Record Space := mkSpace {
  space_id : nat;
  posX : Z;
  posY : Z;
  spaceNorth : option nat;
  spaceWest : option nat;
  spaceCollector : nat }.

Record Card := mkCard { card_id : nat; name : string }.

(** [Room(SpaceCollection, Card)]: [room_id] is the key inherited from
    SpaceCollection, [room_card] the Card part. *)
Record Room := mkRoom { room_id : nat; room_card : Card }.

Record Character := mkCharacter {
  character_card : Card;
  defaultSpace : Space;
  characterColor : string }.

Record Weapon := mkWeapon { weapon_card : Card }.

Record WhoWhatWhere := mkWhoWhatWhere {
  character : Character;
  weapon : Weapon;
  room : Room }.

Record Player := mkPlayer {
  player_id : nat;
  user : option User;
  nonUserPlayer : bool;
  currentSpace : Space;
  currentGame : option nat;
  player_character : Character;
  gameResult : Z }.

Record Turn := mkTurn { turn_id : nat; turn_player : nat; turn_game : nat }.

Inductive ActionClass := ClsAction | ClsSuggestion | ClsAccusation | ClsMove.

Record ActionRow := mkActionRow {
  action_id : nat;
  action_turn : nat;
  action_class : ActionClass }.

Record DetectiveSheet := mkDetectiveSheet {
  sheet_id : nat;
  sheet_game : nat;
  sheet_player : nat }.

Record SheetItem := mkSheetItem {
  item_id : nat;
  detectiveSheet : nat;
  item_card : nat;
  checked : bool;
  initiallyDealt : bool;
  manuallyChecked : bool }.

Record Game := mkGame {
  game_id : nat;
  caseFile : WhoWhatWhere;
  board : nat;
  status : Z;
  lastUpdateTime : Z;
  hostPlayer : nat;
  game_name : string;
  currentSequence : Z;
  currentTurn : option nat }.

Record World := mkWorld {
  w_game : Game;
  w_clock : Z;
  w_boards : list nat;
  w_cards : list Card;
  w_characters : list Character;
  w_rooms : list Room;
  w_weapons : list Weapon;
  w_spaces : list Space;
  w_players : list Player;
  w_turns : list Turn;
  w_actions : list ActionRow;
  w_sheets : list DetectiveSheet;
  w_items : list SheetItem;
  w_whoWhatWheres : list WhoWhatWhere;
  w_caseFiles : list WhoWhatWhere }.

(** Field updates. *)

Definition set_gameResult (r : Z) (p : Player) : Player :=
  mkPlayer (player_id p) (user p) (nonUserPlayer p) (currentSpace p)
           (currentGame p) (player_character p) r.

Definition set_currentSpace (s : Space) (p : Player) : Player :=
  mkPlayer (player_id p) (user p) (nonUserPlayer p) s
           (currentGame p) (player_character p) (gameResult p).

Definition set_currentGame (g : option nat) (p : Player) : Player :=
  mkPlayer (player_id p) (user p) (nonUserPlayer p) (currentSpace p)
           g (player_character p) (gameResult p).

Definition set_flags (c d m : bool) (si : SheetItem) : SheetItem :=
  mkSheetItem (item_id si) (detectiveSheet si) (item_card si) c d m.

Definition set_status (s : Z) (g : Game) : Game :=
  mkGame (game_id g) (caseFile g) (board g) s (lastUpdateTime g)
         (hostPlayer g) (game_name g) (currentSequence g) (currentTurn g).

Definition set_caseFile (cf : WhoWhatWhere) (g : Game) : Game :=
  mkGame (game_id g) cf (board g) (status g) (lastUpdateTime g)
         (hostPlayer g) (game_name g) (currentSequence g) (currentTurn g).

Definition set_board (b : nat) (g : Game) : Game :=
  mkGame (game_id g) (caseFile g) b (status g) (lastUpdateTime g)
         (hostPlayer g) (game_name g) (currentSequence g) (currentTurn g).

Definition set_hostPlayer (h : nat) (g : Game) : Game :=
  mkGame (game_id g) (caseFile g) (board g) (status g) (lastUpdateTime g)
         h (game_name g) (currentSequence g) (currentTurn g).

Definition set_currentTurn (t : option nat) (g : Game) : Game :=
  mkGame (game_id g) (caseFile g) (board g) (status g) (lastUpdateTime g)
         (hostPlayer g) (game_name g) (currentSequence g) t.

Definition stamp (now : Z) (g : Game) : Game :=
  mkGame (game_id g) (caseFile g) (board g) (status g) now
         (hostPlayer g) (game_name g) (currentSequence g + 1)%Z (currentTurn g).

Definition with_game (g : Game) (w : World) : World :=
  mkWorld g (w_clock w) (w_boards w) (w_cards w) (w_characters w) (w_rooms w)
          (w_weapons w) (w_spaces w) (w_players w) (w_turns w) (w_actions w)
          (w_sheets w) (w_items w) (w_whoWhatWheres w) (w_caseFiles w).

Definition with_players (ps : list Player) (w : World) : World :=
  mkWorld (w_game w) (w_clock w) (w_boards w) (w_cards w) (w_characters w)
          (w_rooms w) (w_weapons w) (w_spaces w) ps (w_turns w) (w_actions w)
          (w_sheets w) (w_items w) (w_whoWhatWheres w) (w_caseFiles w).

Definition with_turns (ts : list Turn) (w : World) : World :=
  mkWorld (w_game w) (w_clock w) (w_boards w) (w_cards w) (w_characters w)
          (w_rooms w) (w_weapons w) (w_spaces w) (w_players w) ts (w_actions w)
          (w_sheets w) (w_items w) (w_whoWhatWheres w) (w_caseFiles w).

Definition with_sheets (ds : list DetectiveSheet) (w : World) : World :=
  mkWorld (w_game w) (w_clock w) (w_boards w) (w_cards w) (w_characters w)
          (w_rooms w) (w_weapons w) (w_spaces w) (w_players w) (w_turns w)
          (w_actions w) ds (w_items w) (w_whoWhatWheres w) (w_caseFiles w).

Definition with_items (rows : list SheetItem) (w : World) : World :=
  mkWorld (w_game w) (w_clock w) (w_boards w) (w_cards w) (w_characters w)
          (w_rooms w) (w_weapons w) (w_spaces w) (w_players w) (w_turns w)
          (w_actions w) (w_sheets w) rows (w_whoWhatWheres w) (w_caseFiles w).

(** [www.save()] of a new triple, and [caseFile.save()] of a new case
    file: [CaseFile] inherits from [WhoWhatWhere], so its row comes with
    a row of the parent table. *)
Definition save_whoWhatWhere (www : WhoWhatWhere) (w : World) : World :=
  mkWorld (w_game w) (w_clock w) (w_boards w) (w_cards w) (w_characters w)
          (w_rooms w) (w_weapons w) (w_spaces w) (w_players w) (w_turns w)
          (w_actions w) (w_sheets w) (w_items w) (w_whoWhatWheres w ++ [www])
          (w_caseFiles w).

Definition save_caseFile (cf : WhoWhatWhere) (w : World) : World :=
  mkWorld (w_game w) (w_clock w) (w_boards w) (w_cards w) (w_characters w)
          (w_rooms w) (w_weapons w) (w_spaces w) (w_players w) (w_turns w)
          (w_actions w) (w_sheets w) (w_items w) (w_whoWhatWheres w ++ [cf])
          (w_caseFiles w ++ [cf]).

(** ** Computations: state that survives an exception *)

Inductive Exn :=
| DoesNotExist
| MultipleObjectsReturned
| RuntimeError (msg : string)
| NotImplementedError
| ZeroDivisionError
| IndexError
| ValueError
| AttributeError
| UnboundLocalError.

Inductive Outcome (A : Type) :=
| Return (a : A)
| Raise (e : Exn).

Arguments Return {A} a.
Arguments Raise {A} e.

Definition M (A : Type) : Type := World -> World * Outcome A.

Definition ret {A} (a : A) : M A := fun w => (w, Return a).

Definition raise {A} (e : Exn) : M A := fun w => (w, Raise e).

Definition bind {A B} (c : M A) (k : A -> M B) : M B :=
  fun w => match c w with
           | (w', Return a) => k a w'
           | (w', Raise e) => (w', Raise e)
           end.

Definition get : M World := fun w => (w, Return w).

Definition modify (f : World -> World) : M unit := fun w => (f w, Return tt).

Definition lift {A} (o : Outcome A) : M A := fun w => (w, o).

Declare Scope engine_scope.
Delimit Scope engine_scope with engine.
Notation "x <- c ;; k" := (bind c (fun x => k))
  (at level 61, c at next level, right associativity) : engine_scope.
Notation "c ;;; k" := (bind c (fun _ => k))
  (at level 61, right associativity) : engine_scope.
Open Scope engine_scope.

(** [for x in xs: body(x)] *)
Fixpoint for_each {A} (xs : list A) (body : A -> M unit) : M unit :=
  match xs with
  | [] => ret tt
  | x :: rest => body x ;;; for_each rest body
  end.

(** ** Queries *)

(** [Model.objects.get(...)] over the rows selected by the filter. *)
Definition objects_get {A} (rows : list A) : Outcome A :=
  match rows with
  | [] => Raise DoesNotExist
  | [x] => Return x
  | _ :: _ :: _ => Raise MultipleObjectsReturned
  end.

(** The key an AutoField gives to the next inserted row. *)
Definition next_id (ids : list nat) : nat := S (list_max ids).

Definition in_game (gid : nat) (p : Player) : bool :=
  match currentGame p with
  | Some g => g =? gid
  | None => false
  end.

Definition players_of (gid : nat) (w : World) : list Player :=
  filter (in_game gid) (w_players w).

(** [row.save()] on a table keyed by [key]: update of the rows with the
    object's key, insert at the end when no row has it. *)
Section Table.
Variable A : Type.
Variable key : A -> nat.

Definition has_key (k : nat) (rows : list A) : bool :=
  existsb (fun r => key r =? k) rows.

Definition upsert (x : A) (rows : list A) : list A :=
  if has_key (key x) rows
  then map (fun r => if key r =? key x then x else r) rows
  else rows ++ [x].
End Table.

Definition save_player (p : Player) (w : World) : World :=
  with_players (upsert player_id p (w_players w)) w.

Definition save_item (si : SheetItem) (w : World) : World :=
  with_items (upsert item_id si (w_items w)) w.

(** Following a foreign key to a mutable row. *)
Definition get_turn (tid : nat) : M Turn :=
  fun w => (w, objects_get (filter (fun t => turn_id t =? tid) (w_turns w))).

Definition get_player (pid : nat) : M Player :=
  fun w => (w, objects_get (filter (fun p => player_id p =? pid) (w_players w))).

Definition get_game (gid : nat) : M Game :=
  fun w => if game_id (w_game w) =? gid then (w, Return (w_game w))
           else (w, Raise DoesNotExist).

(** ** Cards and triples *)

(** [Card.compare] *)
Definition Card_compare (self otherCard : Card) : bool :=
  String.eqb (name self) (name otherCard).

(** [WhoWhatWhere.compare] *)
Definition WhoWhatWhere_compare (self otherWhoWhatWhere : WhoWhatWhere) : bool :=
  let roomEqual :=
    Card_compare (room_card (room self)) (room_card (room otherWhoWhatWhere)) in
  let charEqual :=
    Card_compare (character_card (character self))
                 (character_card (character otherWhoWhatWhere)) in
  let weaponEqual :=
    Card_compare (weapon_card (weapon self))
                 (weapon_card (weapon otherWhoWhatWhere)) in
  roomEqual && charEqual && weaponEqual.

(** [Player.compare]: equality of the two [user] fields; two absent users
    are equal, two users are equal when their keys are. *)
Definition Player_compare (self otherPlayer : Player) : bool :=
  match user self, user otherPlayer with
  | None, None => true
  | Some u, Some v => user_id u =? user_id v
  | _, _ => false
  end.

(** ** Game: results and the update counter *)

(** [Game.registerGameUpdate] *)
Definition registerGameUpdate : M unit :=
  modify (fun w => with_game (stamp (w_clock w) (w_game w)) w).

(** [Game.isAccusationCorrect] *)
Definition isAccusationCorrect (self : Game) (whoWhatWhere : WhoWhatWhere) : bool :=
  WhoWhatWhere_compare (caseFile self) whoWhatWhere.

(** [Game.endGame] *)
Definition endGame (winningPlayer : Player) : M unit :=
  modify (save_player (set_gameResult WON winningPlayer)) ;;;
  w <- get ;;
  for_each
    (filter (fun p => negb (player_id p =? player_id winningPlayer))
            (players_of (game_id (w_game w)) w))
    (fun p => modify (save_player (set_gameResult LOST p))) ;;;
  modify (fun w => with_game (set_status 2 (w_game w)) w) ;;;
  registerGameUpdate.

(** [Game.loseGame] *)
Definition loseGame (losingPlayer : Player) : M unit :=
  modify (save_player (set_gameResult LOST losingPlayer)) ;;;
  registerGameUpdate.

(** ** Actions *)

(** An action object: its key ([None] until it is saved), the key of its
    turn, and the fields of its class.  [OtherAction] is an instance of
    any other class: its two methods are whatever that class defines
    (for [Action] itself both raise NotImplementedError). *)
Inductive Action :=
| Move (pk : option nat) (turn : nat) (fromSpace toSpace : Space)
| Suggestion (pk : option nat) (turn : nat) (whoWhatWhere : WhoWhatWhere)
| Accusation (pk : option nat) (turn : nat) (whoWhatWhere : WhoWhatWhere)
| OtherAction (pk : option nat) (turn : nat)
              (validate : M bool) (performAction : M unit).

Definition Action_pk (a : Action) : option nat :=
  match a with
  | Move pk _ _ _ | Suggestion pk _ _ | Accusation pk _ _
  | OtherAction pk _ _ _ => pk
  end.

Definition Action_turn (a : Action) : nat :=
  match a with
  | Move _ t _ _ | Suggestion _ t _ | Accusation _ t _
  | OtherAction _ t _ _ => t
  end.

Definition Action_class (a : Action) : ActionClass :=
  match a with
  | Move _ _ _ _ => ClsMove
  | Suggestion _ _ _ => ClsSuggestion
  | Accusation _ _ _ => ClsAccusation
  | OtherAction _ _ _ _ => ClsAction
  end.

(** The plain base class. *)
Definition BaseAction (pk : option nat) (turn : nat) : Action :=
  OtherAction pk turn (raise NotImplementedError) (raise NotImplementedError).

Definition class_eqb (a b : ActionClass) : bool :=
  match a, b with
  | ClsAction, ClsAction | ClsSuggestion, ClsSuggestion
  | ClsAccusation, ClsAccusation | ClsMove, ClsMove => true
  | _, _ => false
  end.

(** [Suggestion.createSuggestion] / [Accusation.createAccusation]: the new
    action is saved on the turn before it is returned. *)
Definition insert_action (tid : nat) (cls : ActionClass) (w : World) : World * nat :=
  let k := next_id (map action_id (w_actions w)) in
  (mkWorld (w_game w) (w_clock w) (w_boards w) (w_cards w) (w_characters w)
           (w_rooms w) (w_weapons w) (w_spaces w) (w_players w) (w_turns w)
           (w_actions w ++ [mkActionRow k tid cls]) (w_sheets w) (w_items w)
           (w_whoWhatWheres w) (w_caseFiles w), k).

Definition createSuggestion (turn : Turn) (suspect : Character) (room : Room)
    (weapon : Weapon) : M Action :=
  fun w => let www := mkWhoWhatWhere suspect weapon room in
           let (w', k) := insert_action (turn_id turn) ClsSuggestion
                                        (save_whoWhatWhere www w) in
           (w', Return (Suggestion (Some k) (turn_id turn) www)).

Definition createAccusation (turn : Turn) (suspect : Character) (room : Room)
    (weapon : Weapon) : M Action :=
  fun w => let www := mkWhoWhatWhere suspect weapon room in
           let (w', k) := insert_action (turn_id turn) ClsAccusation
                                        (save_whoWhatWhere www w) in
           (w', Return (Accusation (Some k) (turn_id turn) www)).

(** [Suggestion.validate] *)
Definition Suggestion_validate (turn : nat) (whoWhatWhere : WhoWhatWhere) : M bool :=
  t <- get_turn turn ;;
  p <- get_player (turn_player t) ;;
  if negb (room_id (room whoWhatWhere) =? spaceCollector (currentSpace p))
  then ret false
  else ret true.

(** [Suggestion.performAction] *)
Definition Suggestion_performAction (turn : nat) (whoWhatWhere : WhoWhatWhere)
  : M unit :=
  let accusedCharacter := character whoWhatWhere in
  t <- get_turn turn ;;
  g <- get_game (turn_game t) ;;
  w <- get ;;
  accusedPlayer <-
    lift (objects_get
            (filter (fun p => in_game (game_id g) p
                              && (card_id (character_card (player_character p))
                                  =? card_id (character_card accusedCharacter)))
                    (w_players w))) ;;
  accusedSpace <-
    lift (objects_get
            (filter (fun s => spaceCollector s =? room_id (room whoWhatWhere))
                    (w_spaces w))) ;;
  modify (save_player (set_currentSpace accusedSpace accusedPlayer)).

(** [Accusation.validate] *)
Definition Accusation_validate : M bool := ret true.

(** [Accusation.performAction] *)
Definition Accusation_performAction (turn : nat) (whoWhatWhere : WhoWhatWhere)
  : M unit :=
  t <- get_turn turn ;;
  g <- get_game (turn_game t) ;;
  if isAccusationCorrect g whoWhatWhere
  then (p <- get_player (turn_player t) ;; endGame p)
  else (p <- get_player (turn_player t) ;; loseGame p).

(** [Move.validate] *)
Definition Move_validate (fromSpace toSpace : Space) : bool :=
  if ((posX fromSpace + 2 =? posX toSpace)
      || (posX fromSpace - 2 =? posX toSpace)
      || (posY fromSpace + 2 =? posY toSpace)
      || (posY fromSpace - 2 =? posY toSpace))%Z
  then true
  else false.

(** [Move.performAction]: the body is [pass]. *)
Definition Move_performAction : M unit := ret tt.

(** [action.validate()] and [action.performAction()], by class. *)
Definition Action_validate (action : Action) : M bool :=
  match action with
  | Move _ _ fromSpace toSpace => ret (Move_validate fromSpace toSpace)
  | Suggestion _ turn www => Suggestion_validate turn www
  | Accusation _ _ _ => Accusation_validate
  | OtherAction _ _ validate _ => validate
  end.

Definition Action_performAction (action : Action) : M unit :=
  match action with
  | Move _ _ _ _ => Move_performAction
  | Suggestion _ turn www => Suggestion_performAction turn www
  | Accusation _ turn www => Accusation_performAction turn www
  | OtherAction _ _ _ performAction => performAction
  end.

(** ** Turns *)

(** [Cls.objects.filter(turn = self).count()]; [Action.objects] sees the
    rows of every class. *)
Definition count_class (cls : ActionClass) (self : Turn) (w : World) : nat :=
  length (filter (fun r => (action_turn r =? turn_id self)
                           && class_eqb (action_class r) cls)
                 (w_actions w)).

Definition count_actions (self : Turn) (w : World) : nat :=
  length (filter (fun r => action_turn r =? turn_id self) (w_actions w)).

(** [Turn.__validate_action] *)
Definition validate_action (self : Turn) (action : Action) (w : World) : bool :=
  match Action_class action with
  | ClsAccusation =>
      if 1 <? count_class ClsAccusation self w then false else true
  | ClsSuggestion =>
      if 1 <? count_class ClsSuggestion self w then false
      else if 0 <? count_class ClsAccusation self w then false
      else true
  | ClsMove =>
      if 1 <? count_actions self w then false else true
  | ClsAction => false
  end.

Definition unable : string := "Unable to perform action".

(** [Turn.takeAction]: [None] on success, the message otherwise. *)
Definition takeAction (self : Turn) (action : Action) : M (option string) :=
  w <- get ;;
  if negb (validate_action self action w) then ret (Some unable)
  else
    ok <- Action_validate action ;;
    if ok then (Action_performAction action ;;; ret None)
    else ret (Some unable).

(** The position of the first player that compares equal to the current
    one: the index at which the loop of [endTurn] breaks. *)
Fixpoint first_match (currentPlayer : Player) (players : list Player) (i : nat)
  : option nat :=
  match players with
  | [] => None
  | player :: rest =>
      if Player_compare player currentPlayer then Some i
      else first_match currentPlayer rest (S i)
  end.

(** [Turn.endTurn] *)
Definition endTurn (self : Turn) : M unit :=
  g <- get_game (turn_game self) ;;
  cur <- match currentTurn g with
         | Some tid => get_turn tid
         | None => raise AttributeError
         end ;;
  currentPlayer <- get_player (turn_player cur) ;;
  w <- get ;;
  let players := players_of (game_id g) w in
  match first_match currentPlayer players 0 with
  | None => raise UnboundLocalError
  | Some i =>
      match nth_error players ((i + 1) mod length players) with
      | None => raise IndexError
      | Some next_player =>
          let k := next_id (map turn_id (w_turns w)) in
          modify (with_turns (w_turns w ++ [mkTurn k (player_id next_player) (game_id g)])) ;;;
          modify (fun w => with_game (set_currentTurn (Some k) (w_game w)) w)
      end
  end.

(** ** Detective sheets *)

Definition item_of (self : DetectiveSheet) (card : Card) (si : SheetItem) : bool :=
  (detectiveSheet si =? sheet_id self) && (item_card si =? card_id card).

(** [DetectiveSheet.makeNote] *)
Definition makeNote (self : DetectiveSheet) (card : Card)
    (checked initiallyDealt manuallyChecked : bool) : M unit :=
  w <- get ;;
  si <- lift (objects_get (filter (item_of self card) (w_items w))) ;;
  modify (save_item (set_flags checked initiallyDealt manuallyChecked si)).

(** [DetectiveSheet.addDefaultSheets] *)
Definition addDefaultSheets (self : DetectiveSheet) : M unit :=
  w <- get ;;
  for_each (w_cards w)
    (fun c => modify (fun w =>
       with_items
         (w_items w ++ [mkSheetItem (next_id (map item_id (w_items w)))
                                    (sheet_id self) (card_id c) false false false])
         w)).

(** ** Game: life cycle *)

(** [seq[random.randint(0, len(seq) - 1)]]: an empty range is a
    ValueError, every draw [r] lands on a position of the list. *)
Definition random_choice {A} (r : nat) (rows : list A) : Outcome A :=
  match rows with
  | [] => Raise ValueError
  | _ :: _ => match nth_error rows (r mod length rows) with
              | Some x => Return x
              | None => Raise IndexError
              end
  end.

(** [CaseFile.createRandom] *)
Definition createRandom (draws : nat * nat * nat) : M WhoWhatWhere :=
  let '(rc, rr, rw) := draws in
  w <- get ;;
  c <- lift (random_choice rc (w_characters w)) ;;
  r <- lift (random_choice rr (w_rooms w)) ;;
  wp <- lift (random_choice rw (w_weapons w)) ;;
  ret (mkWhoWhatWhere c wp r).

(** [Game.initializeGame].  The assignments to [self] stay in memory
    until the [self.save()] of [registerGameUpdate]: an exception of the
    board lookup or of [createRandom] leaves the stored game as it was.
    The one write before that save is [randCaseFile.save()]. *)
Definition initializeGame (playerHost : Player) (draws : nat * nat * nat) : M unit :=
  w <- get ;;
  b <- match w_boards w with
       | [] => raise IndexError
       | b :: _ => ret b
       end ;;
  randCaseFile <- createRandom draws ;;
  modify (save_caseFile randCaseFile) ;;;
  modify (fun w =>
    with_game (set_caseFile randCaseFile
                 (set_status NOT_STARTED
                    (set_board b (set_hostPlayer (player_id playerHost) (w_game w)))))
              w) ;;;
  registerGameUpdate.

(** [Game.unusedCharacters] *)
Definition unusedCharacters (w : World) : list Character :=
  let usedCharacterIds :=
    map (fun p => card_id (character_card (player_character p)))
        (players_of (game_id (w_game w)) w) in
  filter (fun c => negb (existsb (Nat.eqb (card_id (character_card c)))
                                 usedCharacterIds))
         (w_characters w).

(** The cards that are not in the case file: three chained [exclude]. *)
Definition cards_outside_caseFile (w : World) : list Card :=
  let cf := caseFile (w_game w) in
  filter (fun c => negb (card_id c =? card_id (weapon_card (weapon cf))))
    (filter (fun c => negb (card_id c =? card_id (room_card (room cf))))
       (filter (fun c => negb (card_id c =? card_id (character_card (character cf))))
          (w_cards w))).

Definition sheets_of_game (w : World) : list DetectiveSheet :=
  filter (fun ds => sheet_game ds =? game_id (w_game w)) (w_sheets w).

(** One round of the dealing loop of [startGame]. *)
Definition deal_one (detectiveSheets : list DetectiveSheet) (cardList : list Card)
    (i : nat) : M unit :=
  if length detectiveSheets =? 0 then raise ZeroDivisionError
  else
    let dsIndex := i mod length detectiveSheets in
    match nth_error detectiveSheets dsIndex, nth_error cardList i with
    | Some ds, Some c => makeNote ds c true true false
    | _, _ => raise IndexError
    end.

(** The deal of [startGame]: sheets of the game, cards outside the case
    file, shuffle, round robin. *)
Definition deal (shuffle : list Card -> list Card) : M unit :=
  w <- get ;;
  let detectiveSheets := sheets_of_game w in
  let cardList := shuffle (cards_outside_caseFile w) in
  for_each (seq 0 (length cardList)) (deal_one detectiveSheets cardList).

Definition user_is (u : option User) (v : User) : bool :=
  match u with
  | Some x => user_id x =? user_id v
  | None => false
  end.

(** [Game.startGame] *)
Definition startGame (shuffle : list Card -> list Card) (usr : User) : M unit :=
  w <- get ;;
  let gid := game_id (w_game w) in
  (if negb (status (w_game w) =? 0)%Z
   then raise (RuntimeError "Game already started")
   else if length (players_of gid w) <? 2
   then raise (RuntimeError "Game must have at least 2 players")
   else
     host <- get_player (hostPlayer (w_game w)) ;;
     if negb (user_is (user host) usr)
     then raise (RuntimeError "Game can only be started by host")
     else modify (fun w => with_game (set_status STARTED (w_game w)) w)) ;;;
  host <- get_player (hostPlayer (w_game w)) ;;
  w <- get ;;
  let k := next_id (map turn_id (w_turns w)) in
  modify (with_turns (w_turns w ++ [mkTurn k (player_id host) gid])) ;;;
  modify (fun w => with_game (set_currentTurn (Some k) (w_game w)) w) ;;;
  deal shuffle ;;;
  w <- get ;;
  for_each (unusedCharacters w)
    (fun c => modify (fun w =>
       with_players
         (w_players w ++ [mkPlayer (next_id (map player_id (w_players w))) None true
                                   (defaultSpace c) (Some gid) c 0%Z])
         w)) ;;;
  w <- get ;;
  player <- lift (objects_get (filter (fun p => user_is (user p) usr && in_game gid p)
                                      (w_players w))) ;;
  t <- lift (objects_get (filter (fun t => (turn_player t =? player_id player)
                                           && (turn_game t =? gid))
                                 (w_turns w))) ;;
  modify (fun w => with_game (set_currentTurn (Some (turn_id t)) (w_game w)) w) ;;;
  registerGameUpdate.

(** [Game.isUserInGame]: any exception of the query is caught. *)
Definition isUserInGame (usr : option User) (w : World) : bool :=
  match usr with
  | None => false
  | Some u =>
      match objects_get (filter (fun p => in_game (game_id (w_game w)) p
                                          && user_is (user p) u)
                                (w_players w)) with
      | Return _ => true
      | Raise _ => false
      end
  end.

(** [Game.isCharacterInGame] *)
Definition isCharacterInGame (character : Character) (w : World) : bool :=
  0 <? length (filter (fun p => in_game (game_id (w_game w)) p
                                && (card_id (character_card (player_character p))
                                    =? card_id (character_card character)))
                      (w_players w)).

(** [Game.addPlayer] *)
Definition addPlayer (player : Player) : M unit :=
  w <- get ;;
  let gid := game_id (w_game w) in
  if isUserInGame (user player) w
  then raise (RuntimeError "User is already a player in this game")
  else if isCharacterInGame (player_character player) w
  then raise (RuntimeError "Character is already in use")
  else
    modify (save_player (set_currentGame (Some gid) player)) ;;;
    w <- get ;;
    let ds := mkDetectiveSheet (next_id (map sheet_id (w_sheets w))) gid
                               (player_id player) in
    modify (with_sheets (w_sheets w ++ [ds])) ;;;
    addDefaultSheets ds ;;;
    registerGameUpdate.

(** ** The state snapshot *)

#[warnings="-register-all"]
Inductive JSON :=
| JInt (z : Z)
| JStr (s : string)
| JBool (b : bool)
| JList (items : list JSON)
| JDict (fields : list (string * JSON)).

Definition obind {A B} (o : Outcome A) (k : A -> Outcome B) : Outcome B :=
  match o with
  | Return a => k a
  | Raise e => Raise e
  end.

(** [u.username] on a possibly absent user. *)
Definition username_of (u : option User) : Outcome string :=
  match u with
  | Some x => Return (username x)
  | None => Raise AttributeError
  end.

(** The dictionary [pData] built for one player. *)
Definition playerstate (p : Player) : Outcome JSON :=
  let c := player_character p in
  let s := currentSpace p in
  obind (if nonUserPlayer p then Return "not a user"%string
         else username_of (user p))
        (fun uname =>
  Return (JDict
    [ ("player_id"%string, JInt (Z.of_nat (player_id p)));
      ("username"%string, JStr uname);
      ("character"%string,
         JDict [ ("character_id"%string, JInt (Z.of_nat (card_id (character_card c))));
                 ("character_name"%string, JStr (name (character_card c)));
                 ("character_color"%string, JStr (characterColor c)) ]);
      ("currentSpace"%string,
         JDict [ ("space_id"%string, JInt (Z.of_nat (space_id s)));
                 ("posX"%string, JInt (posX s));
                 ("posY"%string, JInt (posY s)) ]) ])).

Fixpoint playerstates (players : list Player) : Outcome (list JSON) :=
  match players with
  | [] => Return []
  | p :: rest =>
      obind (playerstate p) (fun pData =>
      obind (playerstates rest) (fun more => Return (pData :: more)))
  end.

(** [Game.gameStateJSON]: it only reads. *)
Definition gameStateJSON (player : Player) (w : World) : Outcome JSON :=
  let self := w_game w in
  obind (snd (get_player (hostPlayer self) w)) (fun host =>
  obind (username_of (user host)) (fun hostname =>
  obind (playerstates (players_of (game_id self) w)) (fun states =>
  Return (JDict
    [ ("game_sequence"%string, JInt (currentSequence self));
      ("isHostPlayer"%string, JBool (player_id host =? player_id player));
      ("hostplayer"%string,
         JDict [ ("player_id"%string, JInt (Z.of_nat (player_id host)));
                 ("username"%string, JStr hostname) ]);
      ("status"%string, JInt (status self));
      ("playerstates"%string, JList states) ])))).

(** ** Sheets: the queries *)

(** [Player.getDetectiveSheet]: the sheet of the player in its current
    game; a player without a game matches no sheet. *)
Definition getDetectiveSheet (self : Player) : M DetectiveSheet :=
  fun w =>
    (w, objects_get
          (filter (fun ds => match currentGame self with
                             | Some g => sheet_game ds =? g
                             | None => false
                             end
                             && (sheet_player ds =? player_id self))
                  (w_sheets w))).

(** [DetectiveSheet.__getCheckedCardIds] *)
Definition getCheckedCardIds (self : DetectiveSheet) (w : World) : list nat :=
  map item_card
      (filter (fun si => (detectiveSheet si =? sheet_id self) && checked si)
              (w_items w)).

(** [DetectiveSheet.getCharactersLeft] *)
Definition getCharactersLeft (self : DetectiveSheet) (w : World) : list Character :=
  filter (fun c => negb (existsb (Nat.eqb (card_id (character_card c)))
                                 (getCheckedCardIds self w)))
         (w_characters w).

(** [DetectiveSheet.getRoomsLeft] *)
Definition getRoomsLeft (self : DetectiveSheet) (w : World) : list Room :=
  filter (fun r => negb (existsb (Nat.eqb (card_id (room_card r)))
                                 (getCheckedCardIds self w)))
         (w_rooms w).

(** [DetectiveSheet.getWeaponsLeft] *)
Definition getWeaponsLeft (self : DetectiveSheet) (w : World) : list Weapon :=
  filter (fun x => negb (existsb (Nat.eqb (card_id (weapon_card x)))
                                 (getCheckedCardIds self w)))
         (w_weapons w).

(** * Properties *)

(** ** Tables with a primary key *)

Section TableFacts.
Variable A : Type.
Variable key : A -> nat.

Lemma key_unique (rows : list A) (x y : A) :
  NoDup (map key rows) -> In x rows -> In y rows -> key x = key y -> x = y.
Proof.
  induction rows as [|r rows IH]; simpl; [tauto|].
  intros Hnd Hx Hy Hk. inversion Hnd as [|? ? Hnotin Hnd']; subst.
  destruct Hx as [->|Hx], Hy as [->|Hy]; auto.
  - exfalso. apply Hnotin. rewrite Hk. now apply in_map.
  - exfalso. apply Hnotin. rewrite <- Hk. now apply in_map.
Qed.

Lemma filter_none (f : A -> bool) (rows : list A) :
  (forall r, In r rows -> f r = false) -> filter f rows = [].
Proof.
  induction rows as [|r rows IH]; simpl; intros H; [reflexivity|].
  rewrite (H r) by auto. apply IH. intros; apply H; auto.
Qed.

(** A query on the key finds the row and nothing else. *)
Lemma filter_key (rows : list A) (x : A) :
  NoDup (map key rows) -> In x rows ->
  filter (fun r => key r =? key x) rows = [x].
Proof.
  induction rows as [|r rows IH]; simpl; [tauto|].
  intros Hnd Hx. inversion Hnd as [|? ? Hnotin Hnd']; subst.
  destruct Hx as [->|Hx].
  - rewrite Nat.eqb_refl. f_equal. apply filter_none.
    intros r Hr. apply Nat.eqb_neq. intros E. apply Hnotin.
    rewrite <- E. now apply in_map.
  - destruct (Nat.eqb_spec (key r) (key x)) as [E|E].
    + exfalso. apply Hnotin. rewrite E. now apply in_map.
    + auto.
Qed.

Lemma has_key_in (rows : list A) (x : A) :
  In x rows -> has_key key (key x) rows = true.
Proof.
  intros H. apply existsb_exists. exists x. split; [assumption|apply Nat.eqb_refl].
Qed.

(** Saving a changed copy of a stored row rewrites that row in place. *)
Lemma upsert_stored (rows : list A) (x : A) (f : A -> A) :
  NoDup (map key rows) -> In x rows -> key (f x) = key x ->
  upsert key (f x) rows = map (fun r => if key r =? key x then f r else r) rows.
Proof.
  intros Hnd Hx Hk. unfold upsert. rewrite Hk, (has_key_in _ _ Hx).
  apply map_ext_in. intros r Hr.
  destruct (Nat.eqb_spec (key r) (key x)) as [E|E]; [|reflexivity].
  now rewrite (key_unique _ Hnd Hr Hx E).
Qed.

Lemma map_keeps_keys (rows : list A) (g : A -> A) :
  (forall r, key (g r) = key r) -> map key (map g rows) = map key rows.
Proof.
  intros H. rewrite map_map. apply map_ext. intros; apply H.
Qed.
End TableFacts.

(** ** Cards and triples *)

Lemma Card_compare_refl (c : Card) : Card_compare c c = true.
Proof. unfold Card_compare. apply String.eqb_refl. Qed.

Lemma Card_compare_name (c d : Card) :
  Card_compare c d = true <-> name c = name d.
Proof. unfold Card_compare. apply String.eqb_eq. Qed.

Definition same_names (a b : WhoWhatWhere) : Prop :=
  name (character_card (character a)) = name (character_card (character b))
  /\ name (weapon_card (weapon a)) = name (weapon_card (weapon b))
  /\ name (room_card (room a)) = name (room_card (room b)).

(** Two triples over two different room cards that carry the same name. *)
Definition hall : Space := mkSpace 1 0 0 None None 1.
Definition green : Character := mkCharacter (mkCard 1 "Green") hall "green".
Definition rope : Weapon := mkWeapon (mkCard 2 "Rope").
Definition study : Room := mkRoom 1 (mkCard 3 "Study").
Definition study' : Room := mkRoom 2 (mkCard 4 "Study").
Definition tripleA : WhoWhatWhere := mkWhoWhatWhere green rope study.
Definition tripleB : WhoWhatWhere := mkWhoWhatWhere green rope study'.

(** C8, as stated, fails: the two triples differ in the identity of their
    room card (other key, other space collection), yet [compare] answers
    true, because it looks at the names only. *)
Lemma compare_ignores_identity :
  card_id (room_card (room tripleA)) <> card_id (room_card (room tripleB))
  /\ room tripleA <> room tripleB
  /\ WhoWhatWhere_compare tripleA tripleB = true.
Proof.
  repeat split; [discriminate | discriminate].
Qed.

(** C8, amended: [compare] is reflexive, and it answers true exactly when
    the character, the weapon and the room of the two triples carry the
    same names; so it answers false as soon as one of the three names
    differs. *)
Theorem WhoWhatWhere_compare_names (a b : WhoWhatWhere) :
  WhoWhatWhere_compare a a = true
  /\ (WhoWhatWhere_compare a b = true <-> same_names a b)
  /\ (~ same_names a b -> WhoWhatWhere_compare a b = false).
Proof.
  assert (Hiff : WhoWhatWhere_compare a b = true <-> same_names a b).
  { unfold WhoWhatWhere_compare, same_names.
    rewrite !andb_true_iff, !Card_compare_name. tauto. }
  split; [|split].
  - unfold WhoWhatWhere_compare. now rewrite !Card_compare_refl.
  - exact Hiff.
  - intros Hn. destruct (WhoWhatWhere_compare a b) eqn:E; [|reflexivity].
    exfalso. apply Hn. now apply Hiff.
Qed.

(** ** Moves *)

(** What [Move.validate] computes: a difference of two on some axis, the
    other axis being free. *)
Lemma Move_validate_iff (f t : Space) :
  Move_validate f t = true <->
  (posX t = posX f + 2 \/ posX t = posX f - 2
   \/ posY t = posY f + 2 \/ posY t = posY f - 2)%Z.
Proof.
  unfold Move_validate.
  destruct (posX f + 2 =? posX t)%Z eqn:E1; destruct (posX f - 2 =? posX t)%Z eqn:E2;
    destruct (posY f + 2 =? posY t)%Z eqn:E3; destruct (posY f - 2 =? posY t)%Z eqn:E4;
    simpl; rewrite ?Z.eqb_eq, ?Z.eqb_neq in *; split; intros; try lia; try discriminate.
Qed.

Lemma Move_validate_two_east (f t : Space) :
  posX t = (posX f + 2)%Z -> posY t = posY f -> Move_validate f t = true.
Proof. intros Hx Hy. apply Move_validate_iff. lia. Qed.

Lemma Move_validate_one_east (f t : Space) :
  posX t = (posX f + 1)%Z -> posY t = posY f -> Move_validate f t = false.
Proof.
  intros Hx Hy. destruct (Move_validate f t) eqn:E; [|reflexivity].
  apply Move_validate_iff in E. lia.
Qed.

(** C3: the code at the failing input.  Whatever the source space, the
    diagonal destination two to the east and two to the north validates. *)
Theorem Move_validate_diagonal (i j : nat) (x y : Z) (n n' w w' : option nat)
    (c c' : nat) :
  Move_validate (mkSpace i x y n w c) (mkSpace j (x + 2) (y + 2) n' w' c') = true.
Proof. apply Move_validate_iff. simpl. lia. Qed.

(** C7: the code at the failing input.  Performing a move returns without
    touching the world: every player, the mover included, stands where it
    stood. *)
Theorem Move_performAction_changes_nothing (pk : option nat) (turn : nat)
    (fromSpace toSpace : Space) (w : World) :
  Action_performAction (Move pk turn fromSpace toSpace) w = (w, Return tt).
Proof. reflexivity. Qed.

(** ** The ordering check of a turn *)

Section Counting.
Variable A : Type.
Variable key : A -> nat.

(** Counting the rows that satisfy [P] in a table that stores [x]:
    [x] itself, if it satisfies [P], and then the other rows. *)
Lemma count_apart (P : A -> bool) (rows : list A) (x : A) :
  NoDup (map key rows) -> In x rows ->
  length (filter P rows)
  = (if P x then 1 else 0)
    + length (filter (fun r => P r && negb (key r =? key x)) rows).
Proof.
  induction rows as [|r rows IH]; simpl; [tauto|].
  intros Hnd Hx. inversion Hnd as [|? ? Hnotin Hnd']; subst.
  destruct Hx as [->|Hx].
  - rewrite Nat.eqb_refl, andb_false_r.
    assert (E : filter (fun r => P r && negb (key r =? key x)) rows = filter P rows).
    { apply filter_ext_in. intros r Hr.
      destruct (Nat.eqb_spec (key r) (key x)) as [K|K].
      - exfalso. apply Hnotin. rewrite <- K. now apply in_map.
      - apply andb_true_r. }
    rewrite E. destruct (P x); reflexivity.
  - destruct (Nat.eqb_spec (key r) (key x)) as [K|K].
    + exfalso. apply Hnotin. rewrite K. now apply in_map.
    + simpl. rewrite andb_true_r.
      destruct (P r); simpl; rewrite (IH Hnd' Hx); lia.
Qed.

Lemma filter_twice (P Q : A -> bool) (rows : list A) :
  filter Q (filter P rows) = filter (fun r => P r && Q r) rows.
Proof.
  induction rows as [|r rows IH]; simpl; [reflexivity|].
  destruct (P r); simpl; [destruct (Q r)|]; now rewrite IH.
Qed.

Lemma existsb_count (P : A -> bool) (rows : list A) :
  existsb P rows = (0 <? length (filter P rows)).
Proof.
  induction rows as [|r rows IH]; simpl; [reflexivity|].
  destruct (P r); simpl; [reflexivity|assumption].
Qed.
End Counting.

(** The attempted action is stored on the turn, the way
    [createSuggestion] and [createAccusation] leave it. *)
Definition saved_on (self : Turn) (action : Action) (w : World) : Prop :=
  exists k, Action_pk action = Some k
            /\ In (mkActionRow k (turn_id self) (Action_class action)) (w_actions w).

Definition own_row (action : Action) (r : ActionRow) : bool :=
  match Action_pk action with
  | Some k => action_id r =? k
  | None => false
  end.

(** What the turn already contains when [action] is attempted: its stored
    actions, the attempted one apart. *)
Definition earlier_actions (self : Turn) (action : Action) (w : World)
  : list ActionRow :=
  filter (fun r => (action_turn r =? turn_id self) && negb (own_row action r))
         (w_actions w).

Definition has_class (cls : ActionClass) (rows : list ActionRow) : bool :=
  existsb (fun r => class_eqb (action_class r) cls) rows.

(** The transition rules in the words of the specification: a move only
    as the first action; a suggestion only after no suggestion and no
    accusation; an accusation only after no accusation.  No rule admits
    an action of another kind. *)
Definition ordering_rule (cls : ActionClass) (earlier : list ActionRow) : bool :=
  match cls with
  | ClsMove => match earlier with [] => true | _ :: _ => false end
  | ClsSuggestion =>
      negb (has_class ClsSuggestion earlier) && negb (has_class ClsAccusation earlier)
  | ClsAccusation => negb (has_class ClsAccusation earlier)
  | ClsAction => false
  end.

Lemma count_class_apart (cls : ActionClass) (self : Turn) (action : Action)
    (w : World) :
  NoDup (map action_id (w_actions w)) -> saved_on self action w ->
  count_class cls self w
  = (if class_eqb (Action_class action) cls then 1 else 0)
    + length (filter (fun r => class_eqb (action_class r) cls)
                     (earlier_actions self action w)).
Proof.
  intros Hnd (k & Hpk & Hin). unfold count_class, earlier_actions.
  rewrite (count_apart action_id _ _ _ Hnd Hin). simpl.
  rewrite Nat.eqb_refl. simpl. f_equal.
  rewrite filter_twice. f_equal. apply filter_ext. intros r.
  unfold own_row. rewrite Hpk.
  destruct (action_turn r =? turn_id self), (class_eqb (action_class r) cls),
    (action_id r =? k); reflexivity.
Qed.

Lemma count_actions_apart (self : Turn) (action : Action) (w : World) :
  NoDup (map action_id (w_actions w)) -> saved_on self action w ->
  count_actions self w = 1 + length (earlier_actions self action w).
Proof.
  intros Hnd (k & Hpk & Hin). unfold count_actions, earlier_actions.
  rewrite (count_apart action_id _ _ _ Hnd Hin). simpl.
  rewrite Nat.eqb_refl. simpl. do 2 f_equal. apply filter_ext. intros r.
  unfold own_row. now rewrite Hpk.
Qed.

(** A rejected action: the message comes back and the world is the one
    the call started from. *)
Lemma takeAction_rejected (self : Turn) (action : Action) (w : World) :
  validate_action self action w = false ->
  takeAction self action w = (w, Return (Some unable)).
Proof.
  intros H. unfold takeAction, bind, get. now rewrite H.
Qed.

Lemma takeAction_admitted (self : Turn) (action : Action) (w : World) :
  validate_action self action w = true ->
  takeAction self action w
  = bind (Action_validate action)
         (fun ok => if ok then bind (Action_performAction action) (fun _ => ret None)
                    else ret (Some unable)) w.
Proof.
  intros H. unfold takeAction at 1. unfold bind at 1. unfold get. now rewrite H.
Qed.

(** C1, amended: for an action that is stored on its turn when it is
    attempted, the check admits it exactly by the transition rules read
    over the other actions of the turn; and an action the check rejects
    comes back with the error message, the world unchanged. *)
Theorem validate_action_ordering (self : Turn) (action : Action) (w : World) :
  NoDup (map action_id (w_actions w)) ->
  saved_on self action w ->
  validate_action self action w
  = ordering_rule (Action_class action) (earlier_actions self action w)
  /\ (validate_action self action w = false ->
      takeAction self action w = (w, Return (Some unable))).
Proof.
  intros Hnd Hsaved. split; [|apply takeAction_rejected].
  unfold validate_action, ordering_rule, has_class.
  destruct (Action_class action) eqn:Hcls.
  - reflexivity.
  - rewrite !(count_class_apart _ Hnd Hsaved), Hcls, !existsb_count. simpl.
    destruct (length (filter (fun r => class_eqb (action_class r) ClsSuggestion)
                             (earlier_actions self action w))) as [|n];
      destruct (length (filter (fun r => class_eqb (action_class r) ClsAccusation)
                               (earlier_actions self action w))) as [|m];
      reflexivity.
  - rewrite !(count_class_apart _ Hnd Hsaved), Hcls, !existsb_count. simpl.
    destruct (length (filter (fun r => class_eqb (action_class r) ClsAccusation)
                             (earlier_actions self action w))) as [|m];
      reflexivity.
  - rewrite (count_actions_apart Hnd Hsaved).
    destruct (earlier_actions self action w); reflexivity.
Qed.

(** C10: an action of any other class is turned down by the check, and
    [takeAction] hands back the message without running either of the
    action's methods, whatever they are: the world is untouched. *)
Theorem takeAction_other_class (self : Turn) (pk : option nat) (turn : nat)
    (validate : M bool) (performAction : M unit) (w : World) :
  validate_action self (OtherAction pk turn validate performAction) w = false
  /\ takeAction self (OtherAction pk turn validate performAction) w
     = (w, Return (Some unable)).
Proof.
  split; [reflexivity|]. now apply takeAction_rejected.
Qed.

(** *** A sample game *)

Definition lounge : Space := mkSpace 2 2 0 None None 2.
Definition corner : Space := mkSpace 3 2 2 None None 3.
Definition plum : Character := mkCharacter (mkCard 5 "Plum") lounge "purple".
Definition knife : Weapon := mkWeapon (mkCard 6 "Knife").
Definition kitchen : Room := mkRoom 2 (mkCard 7 "Kitchen").
Definition alice : Player :=
  mkPlayer 1 (Some (mkUser 1 "alice")) false hall (Some 1) green 0.
Definition bob : Player :=
  mkPlayer 2 (Some (mkUser 2 "bob")) false lounge (Some 1) plum 0.
Definition first_turn : Turn := mkTurn 1 1 1.

Definition sample_cards : list Card :=
  [mkCard 1 "Green"; mkCard 2 "Rope"; mkCard 3 "Study";
   mkCard 5 "Plum"; mkCard 6 "Knife"; mkCard 7 "Kitchen"].

(** Alice hosts and has the turn, the case file is Green, Rope, Study, the
    counter stands at 5; the turn's stored actions and the sheet items are
    left open. *)
Definition sample (actions : list ActionRow) (items : list SheetItem) : World :=
  mkWorld (mkGame 1 tripleA 1 STARTED 0 1 "sample" 5 (Some 1)) 0 [1]
          sample_cards [green; plum] [study; kitchen] [rope; knife]
          [hall; lounge; corner] [alice; bob] [first_turn] actions
          [mkDetectiveSheet 1 1 1; mkDetectiveSheet 2 1 2] items [tripleA] [tripleA].

(** A first move of the turn, from the hall at (0,0) to the lounge at
    (2,0): it is admitted, validated and performed, and Alice, who moved,
    is where she was. *)
Example move_leaves_the_mover :
  let w := sample [] [] in
  takeAction first_turn (Move None 1 hall lounge) w = (w, Return None)
  /\ In alice (w_players w)
  /\ currentSpace alice = hall
  /\ hall <> lounge.
Proof. repeat split; simpl; auto. discriminate. Qed.

(** C1, as stated, fails: the turn holds a suggestion, a move that was not
    stored beforehand is attempted, the rule for moves says no, and the
    check lets it through: the move is validated and performed. *)
Lemma unsaved_move_after_suggestion :
  let w := sample [mkActionRow 1 1 ClsSuggestion] [] in
  let late_move := Move None 1 hall lounge in
  earlier_actions first_turn late_move w = [mkActionRow 1 1 ClsSuggestion]
  /\ ordering_rule ClsMove (earlier_actions first_turn late_move w) = false
  /\ validate_action first_turn late_move w = true
  /\ takeAction first_turn late_move w = (w, Return None).
Proof. repeat split. Qed.

Lemma validate_action_ordering_witness :
  let w := sample [mkActionRow 1 1 ClsSuggestion; mkActionRow 2 1 ClsSuggestion] [] in
  let again := Suggestion (Some 2) 1 tripleA in
  validate_action first_turn again w
  = ordering_rule (Action_class again) (earlier_actions first_turn again w)
  /\ (validate_action first_turn again w = false ->
      takeAction first_turn again w = (w, Return (Some unable))).
Proof.
  apply validate_action_ordering.
  - simpl. repeat constructor; simpl; intuition discriminate.
  - exists 2. split; [reflexivity | simpl; auto].
Defined.

(** ** Accusations *)

Lemma get_turn_stored (t : Turn) (w : World) :
  NoDup (map turn_id (w_turns w)) -> In t (w_turns w) ->
  get_turn (turn_id t) w = (w, Return t).
Proof.
  intros Hnd Hin. unfold get_turn. now rewrite (filter_key turn_id _ _ Hnd Hin).
Qed.

Lemma get_player_stored (p : Player) (w : World) :
  NoDup (map player_id (w_players w)) -> In p (w_players w) ->
  get_player (player_id p) w = (w, Return p).
Proof.
  intros Hnd Hin. unfold get_player. now rewrite (filter_key player_id _ _ Hnd Hin).
Qed.

Lemma NoDup_map_filter {A} (key : A -> nat) (f : A -> bool) (rows : list A) :
  NoDup (map key rows) -> NoDup (map key (filter f rows)).
Proof.
  induction rows as [|r rows IH]; simpl; intros Hnd; [constructor|].
  inversion Hnd as [|? ? Hnotin Hnd']; subst.
  destruct (f r); simpl; auto. constructor; auto.
  intros Hin. apply Hnotin. apply in_map_iff in Hin as (x & Hx & Hin).
  apply in_map_iff. exists x. split; [assumption|].
  now apply filter_In in Hin.
Qed.

(** The row of the winner and the rows of a won game. *)
Definition won_by (winner : Player) (gid : nat) (q : Player) : Player :=
  if player_id q =? player_id winner then set_gameResult WON q
  else if in_game gid q then set_gameResult LOST q
  else q.


Lemma save_player_stored (p : Player) (f : Player -> Player) (w : World) :
  NoDup (map player_id (w_players w)) -> In p (w_players w) ->
  player_id (f p) = player_id p ->
  save_player (f p) w
  = with_players
      (map (fun q => if player_id q =? player_id p then f q else q) (w_players w)) w.
Proof.
  intros Hnd Hin Hk. unfold save_player.
  now rewrite (upsert_stored player_id _ _ f Hnd Hin Hk).
Qed.

(** The loop of [endGame]: every listed row is saved as lost. *)
Lemma save_all_lost (losers : list Player) (w : World) :
  NoDup (map player_id (w_players w)) ->
  NoDup (map player_id losers) ->
  incl losers (w_players w) ->
  for_each losers (fun p => modify (save_player (set_gameResult LOST p))) w
  = (with_players
       (map (fun q => if has_key player_id (player_id q) losers
                      then set_gameResult LOST q else q)
            (w_players w)) w,
     Return tt).
Proof.
  revert w. induction losers as [|p losers IH]; intros w Hnd Hl Hincl.
  - simpl. unfold ret. f_equal. destruct w; unfold with_players; simpl.
    f_equal. symmetry. apply map_id.
  - simpl for_each. unfold bind at 1. unfold modify at 1.
    inversion Hl as [|? ? Hp Hl']; subst.
    assert (Hpin : In p (w_players w)) by (apply Hincl; simpl; auto).
    rewrite (save_player_stored _ (set_gameResult LOST) _ Hnd Hpin eq_refl).
    rewrite IH; simpl.
    + unfold with_players; simpl. do 2 f_equal. rewrite map_map.
      apply map_ext. intros q. unfold has_key. simpl.
      rewrite (Nat.eqb_sym (player_id p)).
      destruct (player_id q =? player_id p); simpl; [|reflexivity].
      destruct (existsb _ losers); reflexivity.
    + rewrite map_keeps_keys; [assumption|].
      intros r. now destruct (player_id r =? player_id p).
    + assumption.
    + intros x Hx. apply in_map_iff. exists x.
      assert (Hxin : In x (w_players w)) by (apply Hincl; simpl; auto).
      split; [|assumption].
      destruct (Nat.eqb_spec (player_id x) (player_id p)) as [E|E]; [|reflexivity].
      exfalso. apply Hp. rewrite <- E. now apply in_map.
Qed.

Lemma endGame_effect (winningPlayer : Player) (w : World) :
  NoDup (map player_id (w_players w)) -> In winningPlayer (w_players w) ->
  endGame winningPlayer w
  = (with_game (stamp (w_clock w) (set_status 2 (w_game w)))
       (with_players
          (map (won_by winningPlayer (game_id (w_game w))) (w_players w)) w),
     Return tt).
Proof.
  intros Hnd Hin. unfold endGame.
  unfold bind at 1. unfold modify at 1.
  rewrite (save_player_stored _ (set_gameResult WON) _ Hnd Hin eq_refl).
  set (T1 := map _ (w_players w)).
  assert (Hnd1 : NoDup (map player_id T1)).
  { unfold T1. rewrite map_keeps_keys; [assumption|].
    intros r. now destruct (player_id r =? player_id winningPlayer). }
  unfold bind at 1. unfold get at 1. unfold bind at 1.
  rewrite save_all_lost; simpl.
  - unfold bind, modify, registerGameUpdate, modify, with_game, with_players. simpl.
    do 2 f_equal. unfold players_of. simpl. fold T1. unfold T1 at 2.
    rewrite map_map. apply map_ext_in. intros q Hq.
    unfold won_by.
    destruct (Nat.eqb_spec (player_id q) (player_id winningPlayer)) as [E|E].
    + replace (has_key _ _ _) with false; [reflexivity|].
      symmetry. apply not_true_is_false. intros Hk.
      apply existsb_exists in Hk as (x & Hx & Hk).
      apply filter_In in Hx as (_ & Hx). simpl in Hk.
      apply Nat.eqb_eq in Hk. rewrite Hk, E, Nat.eqb_refl in Hx. discriminate.
    + destruct (in_game (game_id (w_game w)) q) eqn:Hg.
      * replace (has_key _ _ _) with true; [reflexivity|].
        symmetry. apply existsb_exists. exists q. split; [|apply Nat.eqb_refl].
        apply filter_In. split.
        -- apply filter_In. split; [|assumption].
           apply in_map_iff. exists q. split; [|assumption].
           apply Nat.eqb_neq in E. now rewrite E.
        -- apply Nat.eqb_neq in E. now rewrite E.
      * replace (has_key _ _ _) with false; [reflexivity|].
        symmetry. apply not_true_is_false. intros Hk.
        apply existsb_exists in Hk as (x & Hx & Hk).
        apply Nat.eqb_eq in Hk.
        apply filter_In in Hx as (Hx & _). apply filter_In in Hx as (Hx & Hgx).
        assert (x = q).
        { apply (key_unique player_id _ _ _ Hnd1 Hx); [|assumption].
          apply in_map_iff. exists q. split; [|assumption].
          apply Nat.eqb_neq in E. now rewrite E. }
        subst x. simpl in Hgx. congruence.
  - assumption.
  - apply NoDup_map_filter. unfold players_of. simpl. now apply NoDup_map_filter.
  - intros x Hx. apply filter_In in Hx as (Hx & _).
    now apply filter_In in Hx as (Hx & _).
Qed.






(** The two runs on the sample game: the case file named, and another
    weapon named. *)
Example accusation_sample :
  let w := sample [mkActionRow 1 1 ClsAccusation] [] in
  map gameResult
      (w_players (fst (Action_performAction (Accusation (Some 1) 1 tripleA) w)))
  = [WON; LOST]
  /\ map gameResult
         (w_players (fst (Action_performAction
                            (Accusation (Some 1) 1 (mkWhoWhatWhere green knife study)) w)))
     = [LOST; NEITHER]
  /\ status (w_game (fst (Action_performAction
                            (Accusation (Some 1) 1 (mkWhoWhatWhere green knife study)) w)))
     = STARTED.
Proof. repeat split. Qed.

(** ** Suggestions *)

(** The players of the game that hold the suggested character, and the
    spaces of the suggested room: the two queries of
    [Suggestion.performAction]. *)
Definition holders (whoWhatWhere : WhoWhatWhere) (w : World) : list Player :=
  filter (fun p => in_game (game_id (w_game w)) p
                   && (card_id (character_card (player_character p))
                       =? card_id (character_card (character whoWhatWhere))))
         (w_players w).

Definition spaces_of (r : Room) (w : World) : list Space :=
  filter (fun s => spaceCollector s =? room_id r) (w_spaces w).

Definition moved_to (accused : Player) (s : Space) (q : Player) : Player :=
  if player_id q =? player_id accused then set_currentSpace s q else q.

Lemma Suggestion_validate_stored (t : Turn) (p : Player)
    (whoWhatWhere : WhoWhatWhere) (w : World) :
  NoDup (map turn_id (w_turns w)) -> In t (w_turns w) ->
  NoDup (map player_id (w_players w)) -> In p (w_players w) ->
  player_id p = turn_player t ->
  Suggestion_validate (turn_id t) whoWhatWhere w
  = (w, Return (room_id (room whoWhatWhere) =? spaceCollector (currentSpace p))).
Proof.
  intros Hnt Ht Hnp Hp Hid. unfold Suggestion_validate. unfold bind at 1.
  rewrite (get_turn_stored _ _ Hnt Ht). unfold bind.
  rewrite <- Hid, (get_player_stored _ _ Hnp Hp).
  now destruct (room_id (room whoWhatWhere) =? spaceCollector (currentSpace p)).
Qed.

Lemma Suggestion_performAction_stored (t : Turn) (accused : Player) (s : Space)
    (whoWhatWhere : WhoWhatWhere) (w : World) :
  NoDup (map turn_id (w_turns w)) -> In t (w_turns w) ->
  turn_game t = game_id (w_game w) ->
  NoDup (map player_id (w_players w)) ->
  holders whoWhatWhere w = [accused] ->
  spaces_of (room whoWhatWhere) w = [s] ->
  Suggestion_performAction (turn_id t) whoWhatWhere w
  = (with_players (map (moved_to accused s) (w_players w)) w, Return tt).
Proof.
  intros Hnt Ht Hg Hnp Hh Hs. unfold Suggestion_performAction. unfold bind at 1.
  rewrite (get_turn_stored _ _ Hnt Ht). unfold bind at 1. unfold get_game.
  rewrite Hg, Nat.eqb_refl. unfold bind at 1. unfold get at 1.
  unfold holders in Hh. unfold spaces_of in Hs.
  unfold bind at 1. unfold lift at 1. rewrite Hh. simpl objects_get.
  unfold bind at 1. unfold lift at 1. rewrite Hs. simpl objects_get.
  unfold modify.
  assert (Hin : In accused (w_players w)).
  { assert (H : In accused [accused]) by (simpl; auto).
    rewrite <- Hh in H. now apply filter_In in H. }
  now rewrite (save_player_stored _ (set_currentSpace s) _ Hnp Hin eq_refl).
Qed.

(** C6, amended: on a game where exactly one player holds the suggested
    character and the suggested room has exactly one space, the
    suggestion validates exactly when the room is the space collection of
    the suggesting player's current space, and performing it puts the
    holder of the character on the space of the room and leaves every
    other player's row as it was. *)
Theorem Suggestion_validate_and_perform (pk : option nat) (t : Turn)
    (whoWhatWhere : WhoWhatWhere) (p accused : Player) (s : Space) (w : World) :
  NoDup (map turn_id (w_turns w)) -> In t (w_turns w) ->
  turn_game t = game_id (w_game w) ->
  NoDup (map player_id (w_players w)) -> In p (w_players w) ->
  player_id p = turn_player t ->
  holders whoWhatWhere w = [accused] ->
  spaces_of (room whoWhatWhere) w = [s] ->
  let suggestion := Suggestion pk (turn_id t) whoWhatWhere in
  Action_validate suggestion w
  = (w, Return (room_id (room whoWhatWhere) =? spaceCollector (currentSpace p)))
  /\ Action_performAction suggestion w
     = (with_players (map (moved_to accused s) (w_players w)) w, Return tt)
  /\ In s (w_spaces w)
  /\ spaceCollector s = room_id (room whoWhatWhere).
Proof.
  intros Hnt Ht Hg Hnp Hp Hid Hh Hs suggestion.
  split; [|split].
  - now apply Suggestion_validate_stored.
  - now apply Suggestion_performAction_stored.
  - assert (H : In s [s]) by (simpl; auto).
    rewrite <- Hs in H. apply filter_In in H as (H1 & H2).
    split; [assumption|]. now apply Nat.eqb_eq.
Qed.

Definition annex : Space := mkSpace 4 0 2 None None 1.

Definition with_spaces (spaces : list Space) (w : World) : World :=
  mkWorld (w_game w) (w_clock w) (w_boards w) (w_cards w) (w_characters w)
          (w_rooms w) (w_weapons w) spaces (w_players w) (w_turns w)
          (w_actions w) (w_sheets w) (w_items w) (w_whoWhatWheres w) (w_caseFiles w).

Lemma Suggestion_validate_and_perform_witness :
  let w := sample [mkActionRow 1 1 ClsSuggestion] [] in
  let whoWhatWhere := mkWhoWhatWhere plum rope study in
  let suggestion := Suggestion (Some 1) (turn_id first_turn) whoWhatWhere in
  Action_validate suggestion w
  = (w, Return (room_id (room whoWhatWhere) =? spaceCollector (currentSpace alice)))
  /\ Action_performAction suggestion w
     = (with_players (map (moved_to bob hall) (w_players w)) w, Return tt)
  /\ In hall (w_spaces w)
  /\ spaceCollector hall = room_id (room whoWhatWhere).
Proof.
  intros w whoWhatWhere.
  apply (@Suggestion_validate_and_perform (Some 1) first_turn whoWhatWhere alice bob hall w).
  - simpl. repeat constructor; simpl; intuition discriminate.
  - simpl; auto.
  - reflexivity.
  - simpl. repeat constructor; simpl; intuition discriminate.
  - simpl; auto.
  - reflexivity.
  - reflexivity.
  - reflexivity.
Defined.

(** C6, as stated, fails: a player holds the suggested character and the
    suggested room contains a space (two of them), the suggestion
    validates, and performing it raises on the query for the room's space;
    the holder of the character stays in the lounge, outside the room. *)
Lemma suggestion_into_room_of_two_spaces :
  let w := with_spaces [hall; lounge; corner; annex] (sample [] []) in
  let whoWhatWhere := mkWhoWhatWhere plum rope study in
  let suggestion := Suggestion None 1 whoWhatWhere in
  holders whoWhatWhere w = [bob]
  /\ spaces_of study w = [hall; annex]
  /\ Action_validate suggestion w = (w, Return true)
  /\ Action_performAction suggestion w = (w, Raise MultipleObjectsReturned)
  /\ currentSpace bob = lounge
  /\ spaceCollector lounge <> room_id study.
Proof. repeat split. discriminate. Qed.

(** ** The snapshot keeps the secrets *)








(** The snapshot of the sample game, as Bob gets it. *)
Example snapshot_sample :
  gameStateJSON bob (sample [] [])
  = Return (JDict
      [ ("game_sequence"%string, JInt 5);
        ("isHostPlayer"%string, JBool false);
        ("hostplayer"%string,
           JDict [ ("player_id"%string, JInt 1); ("username"%string, JStr "alice") ]);
        ("status"%string, JInt 1);
        ("playerstates"%string,
           JList
             [ JDict [ ("player_id"%string, JInt 1);
                       ("username"%string, JStr "alice");
                       ("character"%string,
                          JDict [ ("character_id"%string, JInt 1);
                                  ("character_name"%string, JStr "Green");
                                  ("character_color"%string, JStr "green") ]);
                       ("currentSpace"%string,
                          JDict [ ("space_id"%string, JInt 1);
                                  ("posX"%string, JInt 0);
                                  ("posY"%string, JInt 0) ]) ];
               JDict [ ("player_id"%string, JInt 2);
                       ("username"%string, JStr "bob");
                       ("character"%string,
                          JDict [ ("character_id"%string, JInt 5);
                                  ("character_name"%string, JStr "Plum");
                                  ("character_color"%string, JStr "purple") ]);
                       ("currentSpace"%string,
                          JDict [ ("space_id"%string, JInt 2);
                                  ("posX"%string, JInt 2);
                                  ("posY"%string, JInt 0) ]) ] ]) ]).
Proof. reflexivity. Qed.

(** ** The update counter *)

Definition sequence (w : World) : Z := currentSequence (w_game w).

(** A computation that leaves the counter alone, and one that steps it by
    one exactly when it returns. *)
Definition keeps {A} (c : M A) : Prop :=
  forall w, sequence (fst (c w)) = sequence w.

Definition bumps {A} (c : M A) : Prop :=
  forall w, match snd (c w) with
            | Return _ => sequence (fst (c w)) = (sequence w + 1)%Z
            | Raise _ => sequence (fst (c w)) = sequence w
            end.

Lemma keeps_ret {A} (a : A) : keeps (ret a).
Proof. intros w; reflexivity. Qed.

Lemma keeps_raise {A} (e : Exn) : keeps (@raise A e).
Proof. intros w; reflexivity. Qed.

Lemma keeps_get : keeps get.
Proof. intros w; reflexivity. Qed.

Lemma keeps_lift {A} (o : Outcome A) : keeps (lift o).
Proof. intros w; reflexivity. Qed.

Lemma keeps_get_turn (tid : nat) : keeps (get_turn tid).
Proof. intros w; reflexivity. Qed.

Lemma keeps_get_player (pid : nat) : keeps (get_player pid).
Proof. intros w; reflexivity. Qed.

Lemma keeps_get_game (gid : nat) : keeps (get_game gid).
Proof. intros w. unfold get_game. now destruct (game_id (w_game w) =? gid). Qed.

Lemma keeps_modify (f : World -> World) :
  (forall w, sequence (f w) = sequence w) -> keeps (modify f).
Proof. intros H w. apply H. Qed.

Lemma keeps_bind {A B} (c : M A) (k : A -> M B) :
  keeps c -> (forall a, keeps (k a)) -> keeps (bind c k).
Proof.
  intros Hc Hk w. unfold bind. specialize (Hc w).
  destruct (c w) as [w' [a|e]]; simpl in *; [|assumption].
  now rewrite (Hk a w').
Qed.

Lemma keeps_for_each {A} (xs : list A) (body : A -> M unit) :
  (forall x, keeps (body x)) -> keeps (for_each xs body).
Proof.
  intros H. induction xs as [|x xs IH]; simpl.
  - apply keeps_ret.
  - apply keeps_bind; auto.
Qed.

Lemma bumps_raise {A} (e : Exn) : bumps (@raise A e).
Proof. intros w; reflexivity. Qed.

Lemma bumps_registerGameUpdate : bumps registerGameUpdate.
Proof. intros w; reflexivity. Qed.

Lemma bumps_bind {A B} (c : M A) (k : A -> M B) :
  keeps c -> (forall a, bumps (k a)) -> bumps (bind c k).
Proof.
  intros Hc Hk w. unfold bind. specialize (Hc w).
  destruct (c w) as [w' [a|e]]; simpl in *; [|assumption].
  specialize (Hk a w'). destruct (snd (k a w')); congruence.
Qed.

Create HintDb counter.

#[local] Hint Resolve keeps_ret keeps_raise keeps_get keeps_lift keeps_get_turn
  keeps_get_player keeps_get_game : counter.

(** A step at a time through a computation that never touches the
    counter. *)
Ltac keeps_step :=
  first
    [ solve [auto 1 with counter nocore]
    | apply keeps_modify; intros ?; reflexivity
    | apply keeps_for_each; intros ?
    | apply keeps_bind; [|intros ?]
    | match goal with
      | |- keeps (if ?b then _ else _) => destruct b
      | |- keeps (match ?x with _ => _ end) => destruct x
      end ].

Ltac keeps_all := repeat keeps_step.

Lemma keeps_makeNote (ds : DetectiveSheet) (c : Card) (a b m : bool) :
  keeps (makeNote ds c a b m).
Proof. unfold makeNote. keeps_all. Qed.

#[local] Hint Resolve keeps_makeNote : counter.

Lemma keeps_deal (shuffle : list Card -> list Card) : keeps (deal shuffle).
Proof. unfold deal. keeps_all. unfold deal_one. keeps_all. Qed.

Lemma keeps_addDefaultSheets (ds : DetectiveSheet) : keeps (addDefaultSheets ds).
Proof. unfold addDefaultSheets. keeps_all. Qed.

Lemma keeps_createRandom (draws : nat * nat * nat) : keeps (createRandom draws).
Proof. destruct draws as [[rc rr] rw]. unfold createRandom. keeps_all. Qed.

#[local] Hint Resolve keeps_deal keeps_addDefaultSheets keeps_createRandom : counter.

Lemma keeps_Suggestion_validate (turn : nat) (www : WhoWhatWhere) :
  keeps (Suggestion_validate turn www).
Proof. unfold Suggestion_validate. keeps_all. Qed.

Lemma keeps_Suggestion_performAction (turn : nat) (www : WhoWhatWhere) :
  keeps (Suggestion_performAction turn www).
Proof. unfold Suggestion_performAction. keeps_all. Qed.

Lemma keeps_endTurn (self : Turn) : keeps (endTurn self).
Proof. unfold endTurn. keeps_all. Qed.

Lemma bumps_endGame (winningPlayer : Player) : bumps (endGame winningPlayer).
Proof.
  unfold endGame.
  repeat (apply bumps_bind; [solve [keeps_all] | intros ?]).
  apply bumps_registerGameUpdate.
Qed.

Lemma bumps_loseGame (losingPlayer : Player) : bumps (loseGame losingPlayer).
Proof.
  unfold loseGame. apply bumps_bind; [keeps_all | intros ?].
  apply bumps_registerGameUpdate.
Qed.

Lemma bumps_Accusation_performAction (turn : nat) (www : WhoWhatWhere) :
  bumps (Accusation_performAction turn www).
Proof.
  unfold Accusation_performAction.
  repeat (apply bumps_bind; [solve [keeps_all] | intros ?]).
  destruct (isAccusationCorrect _ _);
    (apply bumps_bind; [keeps_all | intros ?]);
    [apply bumps_endGame | apply bumps_loseGame].
Qed.

Lemma bumps_initializeGame (playerHost : Player) (draws : nat * nat * nat) :
  bumps (initializeGame playerHost draws).
Proof.
  unfold initializeGame.
  repeat (apply bumps_bind; [solve [keeps_all] | intros ?]).
  apply bumps_registerGameUpdate.
Qed.

Lemma bumps_addPlayer (player : Player) : bumps (addPlayer player).
Proof.
  unfold addPlayer. apply bumps_bind; [keeps_all | intros w].
  destruct (isUserInGame _ _); [apply bumps_raise|].
  destruct (isCharacterInGame _ _); [apply bumps_raise|].
  repeat (apply bumps_bind; [solve [keeps_all] | intros ?]).
  apply bumps_registerGameUpdate.
Qed.

Lemma bumps_startGame (shuffle : list Card -> list Card) (usr : User) :
  bumps (startGame shuffle usr).
Proof.
  unfold startGame.
  repeat (apply bumps_bind; [solve [keeps_all] | intros ?]).
  apply bumps_registerGameUpdate.
Qed.

(** The mutating operations of the engine, and what running one does.
    An accusation is the [TakeAction] of an [Accusation]. *)
Inductive Operation :=
| Initialize (playerHost : Player) (draws : nat * nat * nat)
| Join (player : Player)
| Start (usr : User)
| TakeAction (turn : Turn) (action : Action)
| EndTurn (turn : Turn).

Definition run (shuffle : list Card -> list Card) (op : Operation)
  : M (option string) :=
  match op with
  | Initialize playerHost draws => initializeGame playerHost draws ;;; ret None
  | Join player => addPlayer player ;;; ret None
  | Start usr => startGame shuffle usr ;;; ret None
  | TakeAction turn action => takeAction turn action
  | EndTurn turn => endTurn turn ;;; ret None
  end.

(** The operations that go through [registerGameUpdate]. *)
Definition registers (op : Operation) : bool :=
  match op with
  | Initialize _ _ | Join _ | Start _ => true
  | TakeAction _ (Accusation _ _ _) => true
  | TakeAction _ _ => false
  | EndTurn _ => false
  end.

(** The operation went through: no exception, no error message. *)
Definition went_through (o : Outcome (option string)) : bool :=
  match o with
  | Return None => true
  | _ => false
  end.

Lemma bumps_then_ret (c : M unit) (w : World) :
  bumps c ->
  (sequence w <= sequence (fst ((c ;;; ret (@None string)) w)))%Z
  /\ (went_through (snd ((c ;;; ret (@None string)) w)) = true ->
      sequence (fst ((c ;;; ret (@None string)) w)) = (sequence w + 1)%Z).
Proof.
  intros H. specialize (H w). unfold bind, ret.
  destruct (c w) as [w' [[]|e]]; simpl in *; split;
    try discriminate; intros; lia.
Qed.

Lemma takeAction_sequence (self : Turn) (action : Action) (w : World) :
  (sequence w <= sequence (fst (takeAction self action w)))%Z
  /\ (registers (TakeAction self action) = true ->
      went_through (snd (takeAction self action w)) = true ->
      sequence (fst (takeAction self action w)) = (sequence w + 1)%Z).
Proof.
  destruct (validate_action self action w) eqn:Hv.
  2:{ rewrite (takeAction_rejected _ _ _ Hv). simpl. split; [lia|discriminate]. }
  rewrite (takeAction_admitted _ _ _ Hv).
  destruct action as [pk t f s|pk t www|pk t www|pk t v p]; simpl Action_validate;
    simpl Action_performAction; simpl registers.
  - unfold bind, ret, Move_performAction. simpl.
    destruct (Move_validate f s); simpl; split; (lia || discriminate).
  - assert (K : keeps (ok <- Suggestion_validate t www ;;
                       if ok then Suggestion_performAction t www ;;; ret (@None string)
                       else ret (Some unable))).
    { apply keeps_bind; [apply keeps_Suggestion_validate|]. intros [|].
      - apply keeps_bind; [apply keeps_Suggestion_performAction|intros; apply keeps_ret].
      - apply keeps_ret. }
    rewrite (K w). split; [lia|discriminate].
  - assert (E : (ok <- Accusation_validate ;;
                 if ok then Accusation_performAction t www ;;; ret (@None string)
                 else ret (Some unable)) w
                = (Accusation_performAction t www ;;; ret None) w) by reflexivity.
    rewrite E.
    pose proof (bumps_then_ret w (bumps_Accusation_performAction t www)). tauto.
  - discriminate Hv.
Qed.

(** C5, amended: no operation ever lowers the counter, and the operations
    that go through [registerGameUpdate] (initialize, join, start, and
    taking an accusation) leave it one higher whenever they go through. *)
Theorem sequence_never_decreases (shuffle : list Card -> list Card)
    (op : Operation) (w : World) :
  (sequence w <= sequence (fst (run shuffle op w)))%Z
  /\ (registers op = true ->
      went_through (snd (run shuffle op w)) = true ->
      sequence (fst (run shuffle op w)) = (sequence w + 1)%Z).
Proof.
  destruct op as [h d|p|u|t a|t]; simpl run.
  - pose proof (bumps_then_ret w (bumps_initializeGame h d)). tauto.
  - pose proof (bumps_then_ret w (bumps_addPlayer p)). tauto.
  - pose proof (bumps_then_ret w (bumps_startGame shuffle u)). tauto.
  - apply takeAction_sequence.
  - split; [|discriminate].
    assert (K : keeps (endTurn t ;;; ret (@None string))).
    { apply keeps_bind; [apply keeps_endTurn | intros; apply keeps_ret]. }
    rewrite (K w). lia.
Qed.

Lemma sequence_never_decreases_witness :
  let w := sample [mkActionRow 1 1 ClsAccusation] [] in
  let op := TakeAction first_turn (Accusation (Some 1) 1 tripleB) in
  (sequence w <= sequence (fst (run (@rev Card) op w)))%Z
  /\ (registers op = true ->
      went_through (snd (run (@rev Card) op w)) = true ->
      sequence (fst (run (@rev Card) op w)) = (sequence w + 1)%Z).
Proof.
  intros w op. apply (sequence_never_decreases (@rev Card) op w).
Defined.

(** C5, as stated, fails: ending a turn goes through, hands the turn to
    the next player, and leaves the counter where it was. *)
Lemma endTurn_keeps_sequence :
  let w := sample [] [] in
  snd (run (@rev Card) (EndTurn first_turn) w) = Return None
  /\ currentTurn (w_game (fst (run (@rev Card) (EndTurn first_turn) w))) = Some 2
  /\ sequence (fst (run (@rev Card) (EndTurn first_turn) w)) = sequence w.
Proof. repeat split. Qed.

(** An executed suggestion leaves the counter where it was as well. *)
Lemma suggestion_keeps_sequence :
  let w := sample [mkActionRow 1 1 ClsSuggestion] [] in
  let suggestion := Suggestion (Some 1) 1 (mkWhoWhatWhere plum rope study) in
  snd (run (@rev Card) (TakeAction first_turn suggestion) w) = Return None
  /\ sequence (fst (run (@rev Card) (TakeAction first_turn suggestion) w)) = sequence w.
Proof. repeat split. Qed.

(** ** The deal *)

Definition mark (ds : DetectiveSheet) (c : Card) (items : list SheetItem)
  : list SheetItem :=
  map (fun si => if item_of ds c si then set_flags true true false si else si) items.

Lemma filter_singleton {A} (f : A -> bool) (rows : list A) :
  length (filter f rows) = 1 -> exists x, filter f rows = [x].
Proof.
  destruct (filter f rows) as [|x [|y l]]; simpl; intros H; try discriminate.
  now exists x.
Qed.

Lemma length_filter_map {A} (f : A -> bool) (g : A -> A) (rows : list A) :
  (forall x, f (g x) = f x) ->
  length (filter f (map g rows)) = length (filter f rows).
Proof.
  intros H. induction rows as [|r rows IH]; simpl; [reflexivity|].
  rewrite H. destruct (f r); simpl; now rewrite IH.
Qed.

(** A note on a sheet that has exactly one item for the card rewrites
    the flags of that item. *)
Lemma makeNote_mark (ds : DetectiveSheet) (c : Card) (w : World) :
  NoDup (map item_id (w_items w)) ->
  length (filter (item_of ds c) (w_items w)) = 1 ->
  makeNote ds c true true false w = (with_items (mark ds c (w_items w)) w, Return tt).
Proof.
  intros Hnd Hone. destruct (filter_singleton _ _ Hone) as (si & Hsi).
  unfold makeNote. unfold bind at 1. unfold get at 1. unfold bind, lift.
  rewrite Hsi. simpl objects_get. unfold modify, save_item.
  assert (Hin : In si (filter (item_of ds c) (w_items w))) by (rewrite Hsi; simpl; auto).
  apply filter_In in Hin as (Hin & Hof).
  rewrite (upsert_stored item_id _ _ (set_flags true true false) Hnd Hin eq_refl).
  do 2 f_equal. apply map_ext_in. intros r Hr.
  destruct (item_of ds c r) eqn:Hor.
  - assert (Hr' : In r (filter (item_of ds c) (w_items w))) by (apply filter_In; auto).
    rewrite Hsi in Hr'. destruct Hr' as [<-|[]]. now rewrite Nat.eqb_refl.
  - destruct (Nat.eqb_spec (item_id r) (item_id si)) as [E|E]; [|reflexivity].
    rewrite (key_unique item_id _ _ _ Hnd Hr Hin E) in Hor. congruence.
Qed.

Definition no_sheet : DetectiveSheet := mkDetectiveSheet 0 0 0.
Definition no_card : Card := mkCard 0 "".

Section RoundRobin.
Variable detectiveSheets : list DetectiveSheet.
Variable cardList : list Card.

Definition sheet_at (i : nat) : DetectiveSheet :=
  nth (i mod length detectiveSheets) detectiveSheets no_sheet.

Definition card_at (i : nat) : Card := nth i cardList no_card.

(** Every sheet of the list has one item for every card of the list. *)
Definition complete (items : list SheetItem) : Prop :=
  forall ds c, In ds detectiveSheets -> In c cardList ->
               length (filter (item_of ds c) items) = 1.

Definition marked (rounds : list nat) (si : SheetItem) : bool :=
  existsb (fun i => item_of (sheet_at i) (card_at i) si) rounds.

Lemma item_of_set_flags (ds : DetectiveSheet) (c : Card) (a b m : bool)
    (si : SheetItem) :
  item_of ds c (set_flags a b m si) = item_of ds c si.
Proof. reflexivity. Qed.

Lemma complete_mark (ds : DetectiveSheet) (c : Card) (items : list SheetItem) :
  complete items -> complete (mark ds c items).
Proof.
  intros H ds' c' Hds Hc. unfold mark. rewrite length_filter_map; [now apply H|].
  intros x. now destruct (item_of ds c x).
Qed.

Lemma deal_one_mark (i : nat) (w : World) :
  detectiveSheets <> [] -> i < length cardList ->
  NoDup (map item_id (w_items w)) -> complete (w_items w) ->
  deal_one detectiveSheets cardList i w
  = (with_items (mark (sheet_at i) (card_at i) (w_items w)) w, Return tt).
Proof.
  intros Hne Hi Hnd Hc. unfold deal_one.
  assert (HN : length detectiveSheets <> 0) by (destruct detectiveSheets; simpl; congruence).
  apply Nat.eqb_neq in HN as HN'. rewrite HN'.
  assert (Hj : i mod length detectiveSheets < length detectiveSheets)
    by now apply Nat.mod_upper_bound.
  rewrite (nth_error_nth' detectiveSheets no_sheet Hj).
  rewrite (nth_error_nth' cardList no_card Hi).
  apply makeNote_mark; [assumption|]. apply Hc; apply nth_In; assumption.
Qed.

(** The loop of the deal, as a pass over the table of items. *)
Lemma deal_rounds (rounds : list nat) (w : World) :
  detectiveSheets <> [] ->
  (forall i, In i rounds -> i < length cardList) ->
  NoDup (map item_id (w_items w)) -> complete (w_items w) ->
  for_each rounds (deal_one detectiveSheets cardList) w
  = (with_items
       (map (fun si => if marked rounds si then set_flags true true false si else si)
            (w_items w)) w,
     Return tt).
Proof.
  intros Hne. revert w. induction rounds as [|i rounds IH]; intros w Hr Hnd Hc.
  - simpl. unfold ret. f_equal. destruct w; unfold with_items; simpl.
    f_equal. symmetry. apply map_id.
  - simpl for_each. unfold bind.
    rewrite (@deal_one_mark i w Hne (Hr i (or_introl eq_refl)) Hnd Hc).
    rewrite IH.
    + unfold with_items; simpl. do 2 f_equal. unfold mark. rewrite map_map.
      apply map_ext. intros si. unfold marked. simpl existsb.
      destruct (item_of (sheet_at i) (card_at i) si) eqn:E; simpl.
      * now destruct (existsb _ rounds).
      * reflexivity.
    + intros j Hj. apply Hr. simpl; auto.
    + simpl. unfold mark. rewrite map_keeps_keys; [assumption|].
      intros r. now destruct (item_of (sheet_at i) (card_at i) r).
    + simpl. now apply complete_mark.
Qed.
End RoundRobin.

(** *** Round robin over a list *)
















(** *** What the sheets hold after the deal *)

Definition dealt (si : SheetItem) : bool := checked si && initiallyDealt si.

(** The cards of the registry that a sheet holds as dealt. *)
Definition dealt_in (ds : DetectiveSheet) (items : list SheetItem) (c : Card) : bool :=
  existsb (fun si => item_of ds c si && dealt si) items.

Definition dealt_cards (ds : DetectiveSheet) (w : World) : list Card :=
  filter (dealt_in ds (w_items w)) (w_cards w).


Section AfterTheDeal.
Variable sheets : list DetectiveSheet.
Variable cardList : list Card.
Variable registry : list Card.
Variable items : list SheetItem.

Hypothesis sheets_keyed : NoDup (map sheet_id sheets).
Hypothesis registry_keyed : NoDup (map card_id registry).
Hypothesis cards_registered : incl cardList registry.
Hypothesis one_item_each : complete sheets cardList items.
Hypothesis nothing_dealt :
  forall ds si, In ds sheets -> In si items -> detectiveSheet si = sheet_id ds ->
                initiallyDealt si = false.

Let rounds := seq 0 (length cardList).

End AfterTheDeal.





(** The sample game with the default sheets of its two players. *)
Definition blank (k ds c : nat) : SheetItem := mkSheetItem k ds c false false false.

Definition sample_with_sheets : World :=
  sample []
    [blank 1 1 1; blank 2 1 2; blank 3 1 3; blank 4 1 5; blank 5 1 6; blank 6 1 7;
     blank 7 2 1; blank 8 2 2; blank 9 2 3; blank 10 2 5; blank 11 2 6; blank 12 2 7].

(** These are the items that [addDefaultSheets] creates for the two sheets. *)
Example sample_sheets_are_default :
  fst ((addDefaultSheets (mkDetectiveSheet 1 1 1) ;;;
        addDefaultSheets (mkDetectiveSheet 2 1 2)) (sample [] []))
  = sample_with_sheets.
Proof. vm_compute. reflexivity. Qed.

(** The same database holding, beside the sample game, a sheet of another
    game on which a card is dealt already. *)
Definition sample_beside_dealt_game : World :=
  mkWorld (mkGame 1 tripleA 1 STARTED 0 1 "sample" 5 (Some 1)) 0 [1]
          sample_cards [green; plum] [study; kitchen] [rope; knife]
          [hall; lounge; corner] [alice; bob] [first_turn] []
          [mkDetectiveSheet 1 1 1; mkDetectiveSheet 2 1 2; mkDetectiveSheet 3 2 9]
          [blank 1 1 1; blank 2 1 2; blank 3 1 3; blank 4 1 5; blank 5 1 6; blank 6 1 7;
           blank 7 2 1; blank 8 2 2; blank 9 2 3; blank 10 2 5; blank 11 2 6;
           blank 12 2 7; mkSheetItem 13 3 5 true true false]
          [tripleA] [tripleA].


(** The deal on that database: the dealt item of the other game stays, and
    the two sheets of the sample game share the three cards. *)
Example deal_beside_dealt_game :
  map (fun ds => map card_id
                   (dealt_cards ds (fst (deal (@rev Card) sample_beside_dealt_game))))
      (sheets_of_game sample_beside_dealt_game)
  = [[5; 7]; [6]]
  /\ In (mkSheetItem 13 3 5 true true false)
        (w_items (fst (deal (@rev Card) sample_beside_dealt_game))).
Proof. split; [reflexivity | simpl; tauto]. Qed.

(** The same deal, run: three cards outside the case file, two sheets;
    the first sheet holds two of them, the second one. *)
Example deal_sample :
  map (fun ds => map card_id (dealt_cards ds (fst (deal (@rev Card) sample_with_sheets))))
      (sheets_of_game sample_with_sheets)
  = [[5; 7]; [6]].
Proof. reflexivity. Qed.

(** * Further properties of the engine *)

(** ** Comparison of triples *)

(** [compare] is symmetric and transitive: together with reflexivity, an
    equivalence on triples (that of carrying the same three names). *)
Theorem WhoWhatWhere_compare_equivalence (a b c : WhoWhatWhere) :
  WhoWhatWhere_compare a b = WhoWhatWhere_compare b a
  /\ (WhoWhatWhere_compare a b = true -> WhoWhatWhere_compare b c = true ->
      WhoWhatWhere_compare a c = true).
Proof.
  unfold WhoWhatWhere_compare, Card_compare. split.
  - now rewrite (String.eqb_sym (name (room_card (room a)))),
      (String.eqb_sym (name (character_card (character a)))),
      (String.eqb_sym (name (weapon_card (weapon a)))).
  - rewrite !andb_true_iff, !String.eqb_eq. intuition congruence.
Qed.

Lemma WhoWhatWhere_compare_equivalence_witness :
  WhoWhatWhere_compare tripleA tripleB = WhoWhatWhere_compare tripleB tripleA
  /\ (WhoWhatWhere_compare tripleA tripleB = true ->
      WhoWhatWhere_compare tripleB tripleA = true ->
      WhoWhatWhere_compare tripleA tripleA = true).
Proof. apply (WhoWhatWhere_compare_equivalence tripleA tripleB tripleA). Defined.

(** ** Moves *)

(** A move validates exactly when the move back does, and a move that
    stays on the same coordinates never validates. *)
Theorem Move_validate_symmetric (f t : Space) :
  Move_validate f t = Move_validate t f
  /\ (posX t = posX f -> posY t = posY f -> Move_validate f t = false).
Proof.
  split.
  - destruct (Move_validate f t) eqn:E1, (Move_validate t f) eqn:E2; try reflexivity.
    + apply Move_validate_iff in E1.
      assert (H : Move_validate t f = true) by (apply Move_validate_iff; lia).
      congruence.
    + apply Move_validate_iff in E2.
      assert (H : Move_validate f t = true) by (apply Move_validate_iff; lia).
      congruence.
  - intros Hx Hy. destruct (Move_validate f t) eqn:E; [|reflexivity].
    apply Move_validate_iff in E. lia.
Qed.

Lemma Move_validate_symmetric_witness :
  Move_validate hall hall = Move_validate hall hall
  /\ (posX hall = posX hall -> posY hall = posY hall -> Move_validate hall hall = false).
Proof. apply (Move_validate_symmetric hall hall). Defined.

(** ** Refused actions *)

Lemma Suggestion_validate_reads (turn : nat) (www : WhoWhatWhere) (w : World) :
  fst (Suggestion_validate turn www w) = w.
Proof.
  unfold Suggestion_validate, bind, get_turn, get_player, ret.
  destruct (objects_get (filter _ (w_turns w))) as [t|e]; simpl; [|reflexivity].
  destruct (objects_get (filter _ (w_players w))) as [p|e]; simpl; [|reflexivity].
  now destruct (negb _).
Qed.

Lemma bind_run {A B} (c : M A) (k : A -> M B) (w : World) :
  bind c k w = match c w with
               | (w', Return a) => k a w'
               | (w', Raise e) => (w', Raise e)
               end.
Proof. reflexivity. Qed.

Lemma then_ret_None (c : M unit) (w : World) (msg : string) :
  snd ((c ;;; ret (@None string)) w) <> Return (Some msg).
Proof.
  unfold bind, ret. destruct (c w) as [w' [[]|e]]; simpl; discriminate.
Qed.

(** Validate, then commit: whenever [takeAction] answers with a message,
    the message is the one of the engine and the world is exactly the one
    before the call, whatever the action. *)
Theorem takeAction_refusal_changes_nothing (self : Turn) (action : Action)
    (w : World) (msg : string) :
  snd (takeAction self action w) = Return (Some msg) ->
  fst (takeAction self action w) = w /\ msg = unable.
Proof.
  destruct (validate_action self action w) eqn:Hv.
  2:{ rewrite (takeAction_rejected _ _ _ Hv). simpl. intros H.
      injection H as <-. split; reflexivity. }
  rewrite (takeAction_admitted _ _ _ Hv), bind_run.
  destruct action as [pk t f s|pk t www|pk t www|pk t v p].
  - simpl Action_validate. simpl Action_performAction. unfold ret at 1.
    destruct (Move_validate f s).
    + intros H. now apply then_ret_None in H.
    + simpl. intros H. injection H as <-. split; reflexivity.
  - simpl Action_validate. simpl Action_performAction.
    pose proof (Suggestion_validate_reads t www w) as Hr.
    destruct (Suggestion_validate t www w) as [w' [[|]|e]]; simpl in Hr; subst w'.
    + intros H. now apply then_ret_None in H.
    + simpl. intros H. injection H as <-. split; reflexivity.
    + simpl. discriminate.
  - simpl Action_validate. simpl Action_performAction.
    unfold Accusation_validate, ret at 1.
    intros H. now apply then_ret_None in H.
  - discriminate Hv.
Qed.

Lemma takeAction_refusal_changes_nothing_witness :
  let w := sample [mkActionRow 1 1 ClsSuggestion] [] in
  let elsewhere := Suggestion (Some 1) 1 (mkWhoWhatWhere plum rope kitchen) in
  fst (takeAction first_turn elsewhere w) = w /\ unable = unable.
Proof.
  intros w elsewhere.
  apply (@takeAction_refusal_changes_nothing first_turn elsewhere w unable).
  reflexivity.
Defined.

(** ** Who is in the game *)

Lemma isUserInGame_exactly_one_aux (usr : option User) (w : World) :
  isUserInGame usr w = true
  <-> exists u, usr = Some u
                /\ length (filter (fun p => in_game (game_id (w_game w)) p
                                            && user_is (user p) u)
                                  (w_players w)) = 1.
Proof.
  unfold isUserInGame. destruct usr as [u|].
  - split.
    + intros H. exists u. split; [reflexivity|].
      destruct (filter _ (w_players w)) as [|x [|y l]]; simpl in *;
        try discriminate; reflexivity.
    + intros (u' & Hu & Hl). injection Hu as <-.
      destruct (filter _ (w_players w)) as [|x [|y l]]; simpl in *;
        try discriminate; reflexivity.
  - split; [discriminate|]. intros (u & Hu & _). discriminate.
Qed.

(** [isUserInGame] answers true exactly when one player of the game, and
    only one, belongs to the user: no user, no player of the user, or
    several players of the user all give false. *)
Theorem isUserInGame_exactly_one (w : World) :
  isUserInGame None w = false
  /\ forall u, isUserInGame (Some u) w
               = (length (filter (fun p => in_game (game_id (w_game w)) p
                                           && user_is (user p) u)
                                 (w_players w)) =? 1).
Proof.
  split; [reflexivity|]. intros u. unfold isUserInGame.
  destruct (filter _ (w_players w)) as [|x [|y l]]; reflexivity.
Qed.

Lemma existsb_key_filter {A} (f : A -> nat) (g : A -> bool) (k : nat) (l : list A) :
  existsb (Nat.eqb k) (map f (filter g l))
  = (0 <? length (filter (fun p => g p && (f p =? k)) l)).
Proof.
  induction l as [|x l IH]; simpl; [reflexivity|].
  destruct (g x); simpl; [|assumption].
  rewrite (Nat.eqb_sym k (f x)). destruct (f x =? k); simpl; [reflexivity|assumption].
Qed.

(** The characters [unusedCharacters] lists are the registry characters
    that [isCharacterInGame] reports as not in the game. *)
Theorem unusedCharacters_iff (c : Character) (w : World) :
  In c (unusedCharacters w)
  <-> In c (w_characters w) /\ isCharacterInGame c w = false.
Proof.
  unfold unusedCharacters, isCharacterInGame, players_of.
  rewrite filter_In, negb_true_iff, existsb_key_filter. reflexivity.
Qed.

(** ** Notes on a sheet *)

Definition noted (ds : DetectiveSheet) (c : Card) (a b m : bool)
    (items : list SheetItem) : list SheetItem :=
  map (fun si => if item_of ds c si then set_flags a b m si else si) items.

Lemma makeNote_noted (ds : DetectiveSheet) (c : Card) (a b m : bool) (w : World) :
  NoDup (map item_id (w_items w)) ->
  length (filter (item_of ds c) (w_items w)) = 1 ->
  makeNote ds c a b m w = (with_items (noted ds c a b m (w_items w)) w, Return tt).
Proof.
  intros Hnd Hone. destruct (filter_singleton _ _ Hone) as (si & Hsi).
  unfold makeNote. unfold bind at 1. unfold get at 1. unfold bind, lift.
  rewrite Hsi. simpl objects_get. unfold modify, save_item.
  assert (Hin : In si (filter (item_of ds c) (w_items w))) by (rewrite Hsi; simpl; auto).
  apply filter_In in Hin as (Hin & Hof).
  rewrite (upsert_stored item_id _ _ (set_flags a b m) Hnd Hin eq_refl).
  do 2 f_equal. apply map_ext_in. intros r Hr.
  destruct (item_of ds c r) eqn:Hor.
  - assert (Hr' : In r (filter (item_of ds c) (w_items w))) by (apply filter_In; auto).
    rewrite Hsi in Hr'. destruct Hr' as [<-|[]]. now rewrite Nat.eqb_refl.
  - destruct (Nat.eqb_spec (item_id r) (item_id si)) as [E|E]; [|reflexivity].
    rewrite (key_unique item_id _ _ _ Hnd Hr Hin E) in Hor. congruence.
Qed.

Lemma filter_noted (ds : DetectiveSheet) (c : Card) (a b m : bool)
    (items : list SheetItem) :
  filter (item_of ds c) (noted ds c a b m items)
  = map (set_flags a b m) (filter (item_of ds c) items)
  /\ filter (fun r => negb (item_of ds c r)) (noted ds c a b m items)
     = filter (fun r => negb (item_of ds c r)) items.
Proof.
  unfold noted. induction items as [|r items [IH1 IH2]]; simpl; [split; reflexivity|].
  destruct (item_of ds c r) eqn:E; simpl.
  - rewrite item_of_set_flags, E. simpl. rewrite IH1, IH2. split; reflexivity.
  - rewrite E. simpl. rewrite IH1, IH2. split; reflexivity.
Qed.

(** Writing a note and reading it back: on a sheet with its one item for
    the card, [makeNote] returns, the item then carries the three flags
    that were passed, and the items of every other sheet and card are what
    they were. *)
Theorem makeNote_reads_back (ds : DetectiveSheet) (c : Card) (a b m : bool)
    (w : World) :
  NoDup (map item_id (w_items w)) ->
  length (filter (item_of ds c) (w_items w)) = 1 ->
  exists si w',
    filter (item_of ds c) (w_items w) = [si]
    /\ makeNote ds c a b m w = (w', Return tt)
    /\ filter (item_of ds c) (w_items w') = [set_flags a b m si]
    /\ filter (fun r => negb (item_of ds c r)) (w_items w')
       = filter (fun r => negb (item_of ds c r)) (w_items w).
Proof.
  intros Hnd Hone. destruct (filter_singleton _ _ Hone) as (si & Hsi).
  exists si. eexists. split; [assumption|].
  rewrite (makeNote_noted ds c a b m w Hnd Hone). split; [reflexivity|].
  simpl w_items. destruct (filter_noted ds c a b m (w_items w)) as [H1 H2].
  rewrite H1, H2, Hsi. split; reflexivity.
Qed.

Lemma makeNote_reads_back_witness :
  let w := sample [] [mkSheetItem 1 1 5 false false false;
                      mkSheetItem 2 1 6 false false false] in
  exists si w',
    filter (item_of (mkDetectiveSheet 1 1 1) (mkCard 5 "Plum")) (w_items w) = [si]
    /\ makeNote (mkDetectiveSheet 1 1 1) (mkCard 5 "Plum") true false true w
       = (w', Return tt)
    /\ filter (item_of (mkDetectiveSheet 1 1 1) (mkCard 5 "Plum")) (w_items w')
       = [set_flags true false true si]
    /\ filter (fun r => negb (item_of (mkDetectiveSheet 1 1 1) (mkCard 5 "Plum") r))
              (w_items w')
       = filter (fun r => negb (item_of (mkDetectiveSheet 1 1 1) (mkCard 5 "Plum") r))
                (w_items w).
Proof.
  intros w.
  apply (@makeNote_reads_back (mkDetectiveSheet 1 1 1) (mkCard 5 "Plum")
           true false true w).
  - simpl. repeat constructor; simpl; intuition discriminate.
  - reflexivity.
Defined.

(** A note needs its item: with no item for the card on the sheet the
    query raises DoesNotExist, with more than one MultipleObjectsReturned,
    and in both cases nothing is written. *)
Theorem makeNote_without_its_item (ds : DetectiveSheet) (c : Card) (a b m : bool)
    (w : World) :
  length (filter (item_of ds c) (w_items w)) <> 1 ->
  makeNote ds c a b m w
  = (w, Raise (if length (filter (item_of ds c) (w_items w)) =? 0
               then DoesNotExist else MultipleObjectsReturned)).
Proof.
  intros H. unfold makeNote, bind, get, lift.
  destruct (filter (item_of ds c) (w_items w)) as [|x [|y l]]; simpl in *;
    try reflexivity. congruence.
Qed.

Lemma makeNote_without_its_item_witness :
  makeNote (mkDetectiveSheet 1 1 1) (mkCard 5 "Plum") true false false (sample [] [])
  = (sample [] [],
     Raise (if length (filter (item_of (mkDetectiveSheet 1 1 1) (mkCard 5 "Plum"))
                              (w_items (sample [] []))) =? 0
            then DoesNotExist else MultipleObjectsReturned)).
Proof.
  apply (@makeNote_without_its_item (mkDetectiveSheet 1 1 1) (mkCard 5 "Plum")
           true false false (sample [] [])).
  simpl. discriminate.
Defined.

(** The last note wins: two notes in a row on the same sheet and card
    leave the world that the second one alone leaves; in particular a note
    repeated changes nothing more. *)
Theorem makeNote_last_wins (ds : DetectiveSheet) (c : Card)
    (a b m a' b' m' : bool) (w : World) :
  NoDup (map item_id (w_items w)) ->
  length (filter (item_of ds c) (w_items w)) = 1 ->
  (makeNote ds c a b m ;;; makeNote ds c a' b' m') w = makeNote ds c a' b' m' w.
Proof.
  intros Hnd Hone. rewrite bind_run, (makeNote_noted ds c a b m w Hnd Hone).
  rewrite makeNote_noted.
  - rewrite (makeNote_noted ds c a' b' m' w Hnd Hone).
    unfold with_items; simpl. do 2 f_equal. unfold noted. rewrite map_map.
    apply map_ext. intros r. destruct (item_of ds c r) eqn:E.
    + now rewrite item_of_set_flags, E.
    + now rewrite E.
  - simpl. unfold noted. rewrite map_keeps_keys; [assumption|].
    intros r. now destruct (item_of ds c r).
  - simpl. destruct (filter_noted ds c a b m (w_items w)) as [H1 _].
    now rewrite H1, length_map.
Qed.

Lemma makeNote_last_wins_witness :
  let w := sample [] [mkSheetItem 1 1 5 false false false] in
  (makeNote (mkDetectiveSheet 1 1 1) (mkCard 5 "Plum") true true false ;;;
   makeNote (mkDetectiveSheet 1 1 1) (mkCard 5 "Plum") false false true) w
  = makeNote (mkDetectiveSheet 1 1 1) (mkCard 5 "Plum") false false true w.
Proof.
  intros w.
  apply (@makeNote_last_wins (mkDetectiveSheet 1 1 1) (mkCard 5 "Plum")
           true true false false false true w).
  - simpl. repeat constructor; simpl; intuition discriminate.
  - reflexivity.
Defined.

(** *** What is left on a sheet *)

Lemma length_checked_noted (ds : DetectiveSheet) (c : Card) (a b m : bool)
    (items : list SheetItem) :
  length (filter (fun p => ((detectiveSheet p =? sheet_id ds) && checked p)
                           && (item_card p =? card_id c))
                 (noted ds c a b m items))
  = length (filter (fun r => item_of ds c r && a) items).
Proof.
  unfold noted, item_of. induction items as [|r items IH]; simpl; [reflexivity|].
  destruct (detectiveSheet r =? sheet_id ds) eqn:E1;
    destruct (item_card r =? card_id c) eqn:E2; simpl;
    rewrite ?E1, ?E2; simpl;
    try (destruct (checked r); simpl; assumption);
    try assumption.
  destruct a; simpl; now rewrite IH.
Qed.

Lemma checked_after_note (ds : DetectiveSheet) (c : Card) (a b m : bool)
    (items : list SheetItem) :
  length (filter (item_of ds c) items) = 1 ->
  existsb (Nat.eqb (card_id c))
          (map item_card
               (filter (fun si => (detectiveSheet si =? sheet_id ds) && checked si)
                       (noted ds c a b m items)))
  = a.
Proof.
  intros Hone. rewrite existsb_key_filter, length_checked_noted. destruct a.
  - rewrite (filter_ext _ (item_of ds c)); [now rewrite Hone|].
    intros r. apply andb_true_r.
  - rewrite filter_none; [reflexivity|]. intros r _. apply andb_false_r.
Qed.

(** Checking a card off a sheet takes it out of what is left, unchecking
    it puts it back: after [makeNote] on a sheet with its one item for the
    card, a character, room or weapon of that card is among the ones left
    exactly when the note was made with [checked] false. *)
Theorem note_then_left (ds : DetectiveSheet) (c : Card) (a b m : bool) (w : World) :
  NoDup (map item_id (w_items w)) ->
  length (filter (item_of ds c) (w_items w)) = 1 ->
  let w' := fst (makeNote ds c a b m w) in
  (forall x, In x (w_characters w) -> character_card x = c ->
             (In x (getCharactersLeft ds w') <-> a = false))
  /\ (forall x, In x (w_rooms w) -> room_card x = c ->
                (In x (getRoomsLeft ds w') <-> a = false))
  /\ (forall x, In x (w_weapons w) -> weapon_card x = c ->
                (In x (getWeaponsLeft ds w') <-> a = false)).
Proof.
  intros Hnd Hone w'. unfold w'. rewrite (makeNote_noted ds c a b m w Hnd Hone).
  simpl fst.
  pose proof (checked_after_note ds c a b m (w_items w) Hone) as Hc.
  unfold getCharactersLeft, getRoomsLeft, getWeaponsLeft, getCheckedCardIds.
  simpl w_items. simpl w_characters. simpl w_rooms. simpl w_weapons.
  split; [|split]; intros x Hx Hcard;
    (split; intros H;
     [ apply filter_In in H as (_ & H); subst c; rewrite Hc in H; now destruct a
     | apply filter_In; split; [assumption|]; subst c; now rewrite Hc, H ]).
Qed.

Lemma note_then_left_witness :
  let ds := mkDetectiveSheet 1 1 1 in
  let c := mkCard 5 "Plum" in
  let w := sample [] [mkSheetItem 1 1 5 false false false] in
  let w' := fst (makeNote ds c true true false w) in
  (forall x, In x (w_characters w) -> character_card x = c ->
             (In x (getCharactersLeft ds w') <-> true = false))
  /\ (forall x, In x (w_rooms w) -> room_card x = c ->
                (In x (getRoomsLeft ds w') <-> true = false))
  /\ (forall x, In x (w_weapons w) -> weapon_card x = c ->
                (In x (getWeaponsLeft ds w') <-> true = false)).
Proof.
  intros ds c w.
  apply (@note_then_left ds c true true false w).
  - simpl. repeat constructor; simpl; intuition discriminate.
  - reflexivity.
Defined.

(** ** The default items of a sheet *)

(** The loop of [addDefaultSheets] as a pass over the table of items. *)
Fixpoint add_items (sid : nat) (cards : list Card) (items : list SheetItem)
  : list SheetItem :=
  match cards with
  | [] => items
  | c :: rest =>
      add_items sid rest
        (items ++ [mkSheetItem (next_id (map item_id items)) sid (card_id c)
                               false false false])
  end.

Lemma add_items_run (sid : nat) (cards : list Card) (w : World) :
  for_each cards
    (fun c => modify (fun w =>
       with_items
         (w_items w ++ [mkSheetItem (next_id (map item_id (w_items w)))
                                    sid (card_id c) false false false])
         w)) w
  = (with_items (add_items sid cards (w_items w)) w, Return tt).
Proof.
  revert w. induction cards as [|c cards IH]; intros w.
  - simpl. unfold ret. now destruct w.
  - simpl for_each. rewrite bind_run. unfold modify at 1. rewrite IH.
    now destruct w.
Qed.

Lemma next_id_fresh (ids : list nat) : ~ In (next_id ids) ids.
Proof.
  intros H. unfold next_id in H.
  assert (Hle : Forall (fun k => k <= list_max ids) ids) by now apply list_max_le.
  rewrite Forall_forall in Hle. specialize (Hle _ H). lia.
Qed.

Lemma NoDup_snoc (ids : list nat) (k : nat) :
  NoDup ids -> ~ In k ids -> NoDup (ids ++ [k]).
Proof.
  intros Hnd Hk. apply (Permutation_NoDup (Permutation_cons_append ids k)).
  now constructor.
Qed.

Lemma add_items_keys (sid : nat) (cards : list Card) (items : list SheetItem) :
  NoDup (map item_id items) -> NoDup (map item_id (add_items sid cards items)).
Proof.
  revert items. induction cards as [|c cards IH]; intros items Hnd; simpl.
  - assumption.
  - apply IH. rewrite map_app. simpl. apply NoDup_snoc; [assumption|].
    apply next_id_fresh.
Qed.

Lemma add_items_count (ds : DetectiveSheet) (c : Card) (cards : list Card)
    (items : list SheetItem) :
  length (filter (item_of ds c) (add_items (sheet_id ds) cards items))
  = length (filter (item_of ds c) items)
    + length (filter (fun c' => card_id c' =? card_id c) cards).
Proof.
  revert items. induction cards as [|c' cards IH]; intros items; simpl.
  - lia.
  - rewrite IH, filter_app, length_app. simpl. unfold item_of at 2. simpl.
    rewrite Nat.eqb_refl. simpl.
    destruct (card_id c' =? card_id c); simpl; lia.
Qed.

Lemma add_items_others (sid : nat) (cards : list Card) (items : list SheetItem) :
  filter (fun si => negb (detectiveSheet si =? sid)) (add_items sid cards items)
  = filter (fun si => negb (detectiveSheet si =? sid)) items.
Proof.
  revert items. induction cards as [|c cards IH]; intros items; simpl.
  - reflexivity.
  - rewrite IH, filter_app. simpl. rewrite Nat.eqb_refl. simpl. apply app_nil_r.
Qed.

Lemma add_items_blank (sid : nat) (cards : list Card) (items : list SheetItem)
    (si : SheetItem) :
  In si (add_items sid cards items) ->
  In si items
  \/ (detectiveSheet si = sid /\ checked si = false
      /\ initiallyDealt si = false /\ manuallyChecked si = false).
Proof.
  revert items. induction cards as [|c cards IH]; intros items; simpl.
  - auto.
  - intros H. apply IH in H as [H|H]; [|auto].
    apply in_app_or in H as [H|[<-|[]]]; auto.
Qed.

(** [addDefaultSheets] on a sheet that has no item yet: it returns, the
    keys of the items stay distinct, the sheet has exactly one item for
    every card of the registry, every item of the sheet is unchecked, not
    dealt and not manually checked, and the items of the other sheets are
    the ones that were there. *)
Theorem addDefaultSheets_complete (ds : DetectiveSheet) (w : World) :
  NoDup (map item_id (w_items w)) ->
  NoDup (map card_id (w_cards w)) ->
  (forall si, In si (w_items w) -> detectiveSheet si <> sheet_id ds) ->
  exists w',
    addDefaultSheets ds w = (w', Return tt)
    /\ NoDup (map item_id (w_items w'))
    /\ (forall c, In c (w_cards w) ->
                  length (filter (item_of ds c) (w_items w')) = 1)
    /\ (forall si, In si (w_items w') -> detectiveSheet si = sheet_id ds ->
                   checked si = false /\ initiallyDealt si = false
                   /\ manuallyChecked si = false)
    /\ filter (fun si => negb (detectiveSheet si =? sheet_id ds)) (w_items w')
       = w_items w.
Proof.
  intros Hnd Hcards Hnone. eexists. split.
  { unfold addDefaultSheets. rewrite bind_run. unfold get at 1.
    apply add_items_run. }
  simpl w_items. split; [now apply add_items_keys|]. split; [|split].
  - intros c Hc. rewrite add_items_count.
    rewrite (filter_none (item_of ds c)).
    + simpl. now rewrite (filter_key card_id _ _ Hcards Hc).
    + intros r Hr. unfold item_of. apply Hnone in Hr.
      apply Nat.eqb_neq in Hr. now rewrite Hr.
  - intros si Hsi Hds. apply add_items_blank in Hsi as [Hsi|Hsi]; [|tauto].
    now apply Hnone in Hsi.
  - rewrite add_items_others. clear Hnd.
    induction (w_items w) as [|r items IH]; simpl; [reflexivity|].
    assert (Hr : (detectiveSheet r =? sheet_id ds) = false)
      by (apply Nat.eqb_neq, Hnone; simpl; auto).
    rewrite Hr. simpl. f_equal. apply IH. intros si Hsi. apply Hnone. simpl; auto.
Qed.

Lemma addDefaultSheets_complete_witness :
  let ds := mkDetectiveSheet 2 1 2 in
  let w := sample [] [mkSheetItem 1 1 5 true false false] in
  exists w',
    addDefaultSheets ds w = (w', Return tt)
    /\ NoDup (map item_id (w_items w'))
    /\ (forall c, In c (w_cards w) ->
                  length (filter (item_of ds c) (w_items w')) = 1)
    /\ (forall si, In si (w_items w') -> detectiveSheet si = sheet_id ds ->
                   checked si = false /\ initiallyDealt si = false
                   /\ manuallyChecked si = false)
    /\ filter (fun si => negb (detectiveSheet si =? sheet_id ds)) (w_items w')
       = w_items w.
Proof.
  intros ds w. apply (@addDefaultSheets_complete ds w).
  - simpl. repeat constructor; simpl; intuition discriminate.
  - simpl. repeat constructor; simpl; intuition discriminate.
  - intros si [<-|[]]. simpl. discriminate.
Defined.

(** ** Creating an action, then taking it *)

(** The actions stored on a turn. *)
Definition on_turn (self : Turn) (w : World) : list ActionRow :=
  filter (fun r => action_turn r =? turn_id self) (w_actions w).

Lemma count_class_on_turn (cls : ActionClass) (self : Turn) (w : World) :
  count_class cls self w
  = length (filter (fun r => class_eqb (action_class r) cls) (on_turn self w)).
Proof. unfold count_class, on_turn. now rewrite filter_twice. Qed.

Lemma count_class_inserted (cls new : ActionClass) (self : Turn) (w : World) :
  count_class cls self (fst (insert_action (turn_id self) new w))
  = count_class cls self w + (if class_eqb new cls then 1 else 0).
Proof.
  unfold count_class, insert_action. simpl. rewrite filter_app, length_app. simpl.
  rewrite Nat.eqb_refl. simpl. now destruct (class_eqb new cls).
Qed.

Lemma count_class_saved_triple (cls : ActionClass) (self : Turn)
    (www : WhoWhatWhere) (w : World) :
  count_class cls self (save_whoWhatWhere www w) = count_class cls self w.
Proof. reflexivity. Qed.

(** A suggestion made with [createSuggestion] passes the ordering check
    exactly when the turn held no suggestion and no accusation before it
    was created; an accusation made with [createAccusation] exactly when
    the turn held no accusation.  A second created suggestion, or a second
    created accusation, on a turn is therefore always turned down. *)
Theorem created_action_admitted (self : Turn) (suspect : Character) (r : Room)
    (wp : Weapon) (w : World) :
  (exists k,
     createSuggestion self suspect r wp w
     = (fst (createSuggestion self suspect r wp w),
        Return (Suggestion (Some k) (turn_id self) (mkWhoWhatWhere suspect wp r)))
     /\ validate_action self
          (Suggestion (Some k) (turn_id self) (mkWhoWhatWhere suspect wp r))
          (fst (createSuggestion self suspect r wp w))
        = negb (has_class ClsSuggestion (on_turn self w))
          && negb (has_class ClsAccusation (on_turn self w)))
  /\ (exists k,
        createAccusation self suspect r wp w
        = (fst (createAccusation self suspect r wp w),
           Return (Accusation (Some k) (turn_id self) (mkWhoWhatWhere suspect wp r)))
        /\ validate_action self
             (Accusation (Some k) (turn_id self) (mkWhoWhatWhere suspect wp r))
             (fst (createAccusation self suspect r wp w))
           = negb (has_class ClsAccusation (on_turn self w))).
Proof.
  split; eexists; (split; [reflexivity|]).
  - unfold validate_action, has_class. simpl Action_class.
    change (fst (createSuggestion self suspect r wp w))
      with (fst (insert_action (turn_id self) ClsSuggestion
                   (save_whoWhatWhere (mkWhoWhatWhere suspect wp r) w))).
    rewrite !count_class_inserted, !count_class_saved_triple, !count_class_on_turn,
      !existsb_count. simpl.
    rewrite !Nat.add_0_r, Nat.add_1_r.
    destruct (length (filter (fun x => class_eqb (action_class x) ClsSuggestion)
                             (on_turn self w)));
      destruct (length (filter (fun x => class_eqb (action_class x) ClsAccusation)
                               (on_turn self w))); reflexivity.
  - unfold validate_action, has_class. simpl Action_class.
    change (fst (createAccusation self suspect r wp w))
      with (fst (insert_action (turn_id self) ClsAccusation
                   (save_whoWhatWhere (mkWhoWhatWhere suspect wp r) w))).
    rewrite !count_class_inserted, !count_class_saved_triple, !count_class_on_turn,
      !existsb_count. simpl.
    rewrite Nat.add_1_r.
    destruct (length (filter (fun x => class_eqb (action_class x) ClsAccusation)
                             (on_turn self w))); reflexivity.
Qed.

(** ** The case file and the set-up of a game *)

Lemma random_choice_in {A} (r : nat) (rows : list A) :
  rows <> [] -> exists x, random_choice r rows = Return x /\ In x rows.
Proof.
  intros Hne. destruct rows as [|y rows]; [congruence|].
  unfold random_choice.
  assert (Hlt : r mod length (y :: rows) < length (y :: rows))
    by (apply Nat.mod_upper_bound; simpl; lia).
  destruct (nth_error (y :: rows) (r mod length (y :: rows))) as [x|] eqn:E.
  - exists x. split; [reflexivity|]. eapply nth_error_In; eassumption.
  - apply nth_error_None in E. lia.
Qed.

(** [createRandom] on registries that all have an entry: it returns,
    whatever the three draws, a triple of a registered character, a
    registered weapon and a registered room, and it writes nothing. *)
Theorem createRandom_picks_registered (draws : nat * nat * nat) (w : World) :
  w_characters w <> [] -> w_rooms w <> [] -> w_weapons w <> [] ->
  exists cf,
    createRandom draws w = (w, Return cf)
    /\ In (character cf) (w_characters w)
    /\ In (room cf) (w_rooms w)
    /\ In (weapon cf) (w_weapons w).
Proof.
  intros Hc Hr Hw. destruct draws as [[rc rr] rw].
  destruct (random_choice_in rc Hc) as (c & Ec & Hcin).
  destruct (random_choice_in rr Hr) as (r & Er & Hrin).
  destruct (random_choice_in rw Hw) as (x & Ex & Hxin).
  exists (mkWhoWhatWhere c x r). split; [|simpl; auto].
  unfold createRandom, bind, get, lift, ret. now rewrite Ec, Er, Ex.
Qed.

Lemma createRandom_picks_registered_witness :
  exists cf,
    createRandom (7, 4, 9) (sample [] []) = (sample [] [], Return cf)
    /\ In (character cf) (w_characters (sample [] []))
    /\ In (room cf) (w_rooms (sample [] []))
    /\ In (weapon cf) (w_weapons (sample [] [])).
Proof.
  apply (@createRandom_picks_registered (7, 4, 9) (sample [] []));
    simpl; discriminate.
Defined.

(** With an empty registry of characters, rooms or weapons there is no
    case file to draw: [createRandom] raises ValueError and writes
    nothing. *)
Theorem createRandom_empty_registry (draws : nat * nat * nat) (w : World) :
  w_characters w = [] \/ w_rooms w = [] \/ w_weapons w = [] ->
  createRandom draws w = (w, Raise ValueError).
Proof.
  intros H. destruct draws as [[rc rr] rw].
  unfold createRandom, bind, get, lift, ret.
  destruct (w_characters w) as [|c cs] eqn:Ec; [reflexivity|].
  destruct (random_choice_in rc (rows := c :: cs)) as (c' & E1 & _); [discriminate|].
  rewrite E1.
  destruct (w_rooms w) as [|r rs] eqn:Er; [reflexivity|].
  destruct (random_choice_in rr (rows := r :: rs)) as (r' & E2 & _); [discriminate|].
  rewrite E2.
  destruct (w_weapons w) as [|x xs] eqn:Ex; [reflexivity|].
  destruct H as [H|[H|H]]; discriminate.
Qed.

Definition with_weapons (weapons : list Weapon) (w : World) : World :=
  mkWorld (w_game w) (w_clock w) (w_boards w) (w_cards w) (w_characters w)
          (w_rooms w) weapons (w_spaces w) (w_players w) (w_turns w)
          (w_actions w) (w_sheets w) (w_items w) (w_whoWhatWheres w) (w_caseFiles w).

Lemma createRandom_empty_registry_witness :
  createRandom (0, 0, 0) (with_weapons [] (sample [] []))
  = (with_weapons [] (sample [] []), Raise ValueError).
Proof.
  apply (@createRandom_empty_registry (0, 0, 0) (with_weapons [] (sample [] []))).
  right. right. reflexivity.
Defined.

(** [initializeGame] sets a game up or writes nothing.  Without a board
    it raises IndexError, with a board but an empty registry ValueError,
    and the world is then the one before the call.  With a board and
    non-empty registries it returns: the new case file, of registered
    cards, is saved; the game is hosted by the given player, on the first
    board, not started, with that case file, and one update further; its
    key, name and current turn, and all the other tables, are untouched. *)
Theorem initializeGame_sets_up (playerHost : Player) (draws : nat * nat * nat)
    (w : World) :
  (w_boards w = [] ->
   initializeGame playerHost draws w = (w, Raise IndexError))
  /\ (w_boards w <> [] ->
      w_characters w = [] \/ w_rooms w = [] \/ w_weapons w = [] ->
      initializeGame playerHost draws w = (w, Raise ValueError))
  /\ (forall b bs,
        w_boards w = b :: bs ->
        w_characters w <> [] -> w_rooms w <> [] -> w_weapons w <> [] ->
        exists cf,
          initializeGame playerHost draws w
          = (with_game (mkGame (game_id (w_game w)) cf b NOT_STARTED (w_clock w)
                               (player_id playerHost) (game_name (w_game w))
                               (currentSequence (w_game w) + 1)
                               (currentTurn (w_game w)))
                       (save_caseFile cf w),
             Return tt)
          /\ In (character cf) (w_characters w)
          /\ In (room cf) (w_rooms w)
          /\ In (weapon cf) (w_weapons w)).
Proof.
  destruct draws as [[rc rr] rw]. split; [|split].
  - intros Hb. unfold initializeGame. rewrite bind_run. unfold get at 1.
    now rewrite bind_run, Hb.
  - intros Hb Hempty. destruct (w_boards w) as [|b bs] eqn:Eb; [congruence|].
    unfold initializeGame. rewrite bind_run. unfold get at 1.
    rewrite bind_run, Eb. unfold ret at 1. rewrite bind_run.
    assert (E : createRandom (rc, rr, rw) w = (w, Raise ValueError)).
    { unfold createRandom, bind, get, lift, ret.
      destruct (w_characters w) as [|c cs] eqn:Ec; [reflexivity|].
      destruct (random_choice_in rc (rows := c :: cs)) as (c' & E1 & _);
        [discriminate|].
      rewrite E1.
      destruct (w_rooms w) as [|r rs] eqn:Er; [reflexivity|].
      destruct (random_choice_in rr (rows := r :: rs)) as (r' & E2 & _);
        [discriminate|].
      rewrite E2.
      destruct (w_weapons w) as [|x xs] eqn:Ex; [reflexivity|].
      destruct Hempty as [H|[H|H]]; discriminate. }
    now rewrite E.
  - intros b bs Hb Hc Hr Hw.
    destruct (random_choice_in rc Hc) as (c & Ec & Hcin).
    destruct (random_choice_in rr Hr) as (r & Er & Hrin).
    destruct (random_choice_in rw Hw) as (x & Ex & Hxin).
    exists (mkWhoWhatWhere c x r). split; [|simpl; auto].
    unfold initializeGame. rewrite bind_run. unfold get at 1.
    rewrite bind_run, Hb. unfold ret at 1. rewrite bind_run.
    assert (E : createRandom (rc, rr, rw) w = (w, Return (mkWhoWhatWhere c x r))).
    { unfold createRandom, bind, get, lift, ret. now rewrite Ec, Er, Ex. }
    now rewrite E.
Qed.

Lemma initializeGame_sets_up_witness :
  let w := sample [] [] in
  (w_boards w = [] ->
   initializeGame bob (1, 2, 3) w = (w, Raise IndexError))
  /\ (w_boards w <> [] ->
      w_characters w = [] \/ w_rooms w = [] \/ w_weapons w = [] ->
      initializeGame bob (1, 2, 3) w = (w, Raise ValueError))
  /\ (forall b bs,
        w_boards w = b :: bs ->
        w_characters w <> [] -> w_rooms w <> [] -> w_weapons w <> [] ->
        exists cf,
          initializeGame bob (1, 2, 3) w
          = (with_game (mkGame (game_id (w_game w)) cf b NOT_STARTED (w_clock w)
                               (player_id bob) (game_name (w_game w))
                               (currentSequence (w_game w) + 1)
                               (currentTurn (w_game w)))
                       (save_caseFile cf w),
             Return tt)
          /\ In (character cf) (w_characters w)
          /\ In (room cf) (w_rooms w)
          /\ In (weapon cf) (w_weapons w)).
Proof.
  intros w. apply (initializeGame_sets_up bob (1, 2, 3) w).
Defined.

(** A run on the sample game: the draws 1, 2, 3 pick Plum, the study and
    the knife. *)
Example initializeGame_sample :
  initializeGame bob (1, 2, 3) (sample [] [])
  = (with_game (mkGame 1 (mkWhoWhatWhere plum knife study) 1 NOT_STARTED 0 2
                       "sample" 6 (Some 1))
               (save_caseFile (mkWhoWhatWhere plum knife study) (sample [] [])),
     Return tt).
Proof. reflexivity. Qed.

(** ** Joining a game *)

(** The card of the character a player holds. *)
Definition held (p : Player) : nat := card_id (character_card (player_character p)).

(** The world that a successful [addPlayer] leaves. *)
Definition joined (player : Player) (w : World) : World :=
  let gid := game_id (w_game w) in
  let ds := mkDetectiveSheet (next_id (map sheet_id (w_sheets w))) gid
                             (player_id player) in
  with_game (stamp (w_clock w) (w_game w))
    (with_items (add_items (sheet_id ds) (w_cards w) (w_items w))
       (with_sheets (w_sheets w ++ [ds])
          (save_player (set_currentGame (Some gid) player) w))).

Lemma addPlayer_run (player : Player) (w : World) :
  isUserInGame (user player) w = false ->
  isCharacterInGame (player_character player) w = false ->
  addPlayer player w = (joined player w, Return tt).
Proof.
  intros Hu Hc. unfold addPlayer. rewrite bind_run. unfold get at 1.
  rewrite Hu, Hc. rewrite bind_run. unfold modify at 1.
  rewrite bind_run. unfold get at 1. rewrite bind_run. unfold modify at 1.
  rewrite bind_run. unfold addDefaultSheets. rewrite bind_run. unfold get at 1.
  rewrite add_items_run. reflexivity.
Qed.

Lemma taken_in_game (c : Character) (q : Player) (w : World) :
  In q (w_players w) -> in_game (game_id (w_game w)) q = true ->
  held q = card_id (character_card c) ->
  isCharacterInGame c w = true.
Proof.
  intros Hq Hg Hh. unfold isCharacterInGame.
  assert (Hin : In q (filter (fun p => in_game (game_id (w_game w)) p
                                       && (card_id (character_card (player_character p))
                                           =? card_id (character_card c)))
                             (w_players w))).
  { apply filter_In. split; [assumption|]. rewrite Hg. simpl.
    apply Nat.eqb_eq. exact Hh. }
  destruct (filter _ (w_players w)); [contradiction|reflexivity].
Qed.

Lemma not_taken (c : Character) (w : World) :
  isCharacterInGame c w = false ->
  ~ In (card_id (character_card c)) (map held (players_of (game_id (w_game w)) w)).
Proof.
  intros H Hin. unfold isCharacterInGame in H. unfold players_of, held in Hin.
  assert (E : existsb (Nat.eqb (card_id (character_card c)))
                      (map (fun p => card_id (character_card (player_character p)))
                           (filter (in_game (game_id (w_game w))) (w_players w)))
              = true).
  { apply existsb_exists. eexists. split; [exact Hin|apply Nat.eqb_refl]. }
  rewrite existsb_key_filter in E. congruence.
Qed.

Lemma refused_when_taken (player : Player) (w : World) :
  isCharacterInGame (player_character player) w = true ->
  exists msg, addPlayer player w = (w, Raise (RuntimeError msg)).
Proof.
  intros Hc. unfold addPlayer. rewrite bind_run. unfold get at 1.
  destruct (isUserInGame (user player) w); [eexists; reflexivity|].
  rewrite Hc. eexists; reflexivity.
Qed.

(** The refusals of [addPlayer], in their order: a user with exactly one
    player in the game gets "User is already a player in this game";
    otherwise a character that a player of the game holds gets "Character
    is already in use".  Neither writes anything. *)
Theorem addPlayer_refuses (player : Player) (u : User) (w : World) :
  user player = Some u ->
  let mine := filter (fun p => in_game (game_id (w_game w)) p && user_is (user p) u)
                     (w_players w) in
  (length mine = 1 ->
   addPlayer player w
   = (w, Raise (RuntimeError "User is already a player in this game")))
  /\ (length mine <> 1 ->
      forall q, In q (w_players w) -> in_game (game_id (w_game w)) q = true ->
                held q = held player ->
                addPlayer player w = (w, Raise (RuntimeError "Character is already in use"))).
Proof.
  intros Hu mine. split.
  - intros Hone.
    assert (H : isUserInGame (user player) w = true).
    { apply isUserInGame_exactly_one_aux. exists u. split; assumption. }
    unfold addPlayer. rewrite bind_run. unfold get at 1. now rewrite H.
  - intros Hnot q Hq Hg Hh.
    assert (H : isUserInGame (user player) w = false).
    { apply not_true_is_false. intros H.
      apply isUserInGame_exactly_one_aux in H as (u' & Hu' & Hl).
      rewrite Hu in Hu'. injection Hu' as <-. now apply Hnot. }
    unfold addPlayer. rewrite bind_run. unfold get at 1. rewrite H.
    now rewrite (taken_in_game (player_character player) q w Hq Hg Hh).
Qed.

Lemma addPlayer_refuses_witness :
  let w := sample [] [] in
  let newcomer := mkPlayer 3 (Some (mkUser 3 "carol")) false hall None plum 0 in
  let mine := filter (fun p => in_game (game_id (w_game w)) p
                               && user_is (user p) (mkUser 3 "carol"))
                     (w_players w) in
  (length mine = 1 ->
   addPlayer newcomer w
   = (w, Raise (RuntimeError "User is already a player in this game")))
  /\ (length mine <> 1 ->
      forall q, In q (w_players w) -> in_game (game_id (w_game w)) q = true ->
                held q = held newcomer ->
                addPlayer newcomer w
                = (w, Raise (RuntimeError "Character is already in use"))).
Proof.
  intros w newcomer.
  apply (@addPlayer_refuses newcomer (mkUser 3 "carol") w). reflexivity.
Defined.

Lemma upsert_in {A} (key : A -> nat) (x : A) (rows : list A) :
  In x (upsert key x rows).
Proof.
  unfold upsert. destruct (has_key key (key x) rows) eqn:E.
  - apply existsb_exists in E as (r & Hr & Hk). apply in_map_iff.
    exists r. split; [|assumption]. now rewrite Hk.
  - apply in_or_app. right. simpl; auto.
Qed.

(** Saving a row whose key is stored replaces the one row of that key. *)
Lemma upsert_split {A} (key : A -> nat) (x : A) (rows : list A) :
  NoDup (map key rows) -> has_key key (key x) rows = true ->
  exists front old back,
    rows = front ++ old :: back /\ key old = key x
    /\ upsert key x rows = front ++ x :: back.
Proof.
  intros Hnd Hk. unfold upsert. rewrite Hk.
  apply existsb_exists in Hk as (old & Hold & Hkey). apply Nat.eqb_eq in Hkey.
  destruct (in_split _ _ Hold) as (front & back & ->).
  exists front, old, back. split; [reflexivity|]. split; [assumption|].
  rewrite map_app in Hnd. simpl in Hnd. apply NoDup_remove_2 in Hnd.
  rewrite map_app. simpl. rewrite Hkey, Nat.eqb_refl. f_equal; [|f_equal].
  - rewrite <- (map_id front) at 2. apply map_ext_in. intros r Hr.
    destruct (Nat.eqb_spec (key r) (key x)) as [E|E]; [|reflexivity].
    exfalso. apply Hnd. apply in_or_app. left. rewrite Hkey, <- E. now apply in_map.
  - rewrite <- (map_id back) at 2. apply map_ext_in. intros r Hr.
    destruct (Nat.eqb_spec (key r) (key x)) as [E|E]; [|reflexivity].
    exfalso. apply Hnd. apply in_or_app. right. rewrite Hkey, <- E. now apply in_map.
Qed.

(** A successful [addPlayer] stores the player's row, in the game, with
    its character, and from then on the character is taken for as long as
    that row holds it: in the world the call returns, and in every later
    world of the game where the row of the player's key is still in the
    game with that character, a player that asks for the same character,
    the same player again included, is refused with a [RuntimeError], and
    the refusal writes nothing. *)
Theorem addPlayer_then_character_taken (player other : Player) (w w' : World) :
  addPlayer player w = (w', Return tt) ->
  held other = held player ->
  let gid := game_id (w_game w) in
  In (set_currentGame (Some gid) player) (w_players w')
  /\ game_id (w_game w') = gid
  /\ (exists msg, addPlayer other w' = (w', Raise (RuntimeError msg)))
  /\ (forall later q,
        game_id (w_game later) = gid -> In q (w_players later) ->
        player_id q = player_id player -> in_game gid q = true ->
        held q = held player ->
        exists msg, addPlayer other later = (later, Raise (RuntimeError msg))).
Proof.
  intros Hjoin Hsame gid.
  assert (Hrun : w' = joined player w).
  { unfold addPlayer in Hjoin. rewrite bind_run in Hjoin. unfold get at 1 in Hjoin.
    destruct (isUserInGame (user player) w) eqn:Hu; [discriminate|].
    destruct (isCharacterInGame (player_character player) w) eqn:Hc; [discriminate|].
    pose proof (addPlayer_run player w Hu Hc) as E.
    unfold addPlayer in E. rewrite bind_run in E. unfold get at 1 in E.
    rewrite Hu, Hc in E. congruence. }
  subst w'.
  assert (Hrow : In (set_currentGame (Some gid) player) (w_players (joined player w))).
  { unfold joined, save_player. simpl. apply upsert_in. }
  assert (Hlater : forall later q,
            game_id (w_game later) = gid -> In q (w_players later) ->
            in_game gid q = true -> held q = held player ->
            exists msg, addPlayer other later = (later, Raise (RuntimeError msg))).
  { intros later q Hg Hq Hin Hq_holds. apply refused_when_taken.
    apply (taken_in_game (player_character other) q); [assumption|now rewrite Hg|].
    rewrite Hq_holds. symmetry. exact Hsame. }
  split; [exact Hrow|]. split; [reflexivity|]. split.
  - apply (Hlater (joined player w) (set_currentGame (Some gid) player));
      [reflexivity|exact Hrow| |reflexivity].
    unfold in_game. simpl. apply Nat.eqb_refl.
  - intros later q Hg Hq _ Hin Hq_holds. now apply (Hlater later q).
Qed.

Lemma addPlayer_then_character_taken_witness :
  let w := sample [] [] in
  let carol := mkPlayer 3 (Some (mkUser 3 "carol")) false hall None
                        (mkCharacter (mkCard 8 "Scarlet") hall "red") 0 in
  In (set_currentGame (Some (game_id (w_game w))) carol) (w_players (joined carol w))
  /\ game_id (w_game (joined carol w)) = game_id (w_game w)
  /\ (exists msg, addPlayer carol (joined carol w)
                  = (joined carol w, Raise (RuntimeError msg)))
  /\ (forall later q,
        game_id (w_game later) = game_id (w_game w) -> In q (w_players later) ->
        player_id q = player_id carol -> in_game (game_id (w_game w)) q = true ->
        held q = held carol ->
        exists msg, addPlayer carol later = (later, Raise (RuntimeError msg))).
Proof.
  intros w carol.
  apply (@addPlayer_then_character_taken carol carol w (joined carol w));
    reflexivity.
Defined.

(** The character is taken only as long as the row holds it: once the row
    of the player who joined is saved with another character, a newcomer
    joins with the first one. *)
Example character_free_after_resave :
  let scarlet := mkCharacter (mkCard 8 "Scarlet") hall "red" in
  let carol := mkPlayer 3 (Some (mkUser 3 "carol")) false hall None scarlet 0 in
  let dave := mkPlayer 4 (Some (mkUser 4 "dave")) false hall None scarlet 0 in
  let w' := fst (addPlayer carol (sample [] [])) in
  let later := save_player (mkPlayer 3 (Some (mkUser 3 "carol")) false hall (Some 1)
                                     plum 0) w' in
  snd (addPlayer carol (sample [] [])) = Return tt
  /\ (exists msg, addPlayer dave w' = (w', Raise (RuntimeError msg)))
  /\ snd (addPlayer dave later) = Return tt.
Proof.
  repeat split. eexists. vm_compute. reflexivity.
Qed.

Lemma addPlayer_raises (player : Player) (w : World) :
  isUserInGame (user player) w = true
  \/ isCharacterInGame (player_character player) w = true ->
  fst (addPlayer player w) = w.
Proof.
  intros H. unfold addPlayer. rewrite bind_run. unfold get at 1.
  destruct (isUserInGame (user player) w); [reflexivity|].
  destruct (isCharacterInGame (player_character player) w); [reflexivity|].
  destruct H; discriminate.
Qed.

(** [addPlayer] keeps the characters of a game distinct: if no two
    players of the game hold the same character before the call, none do
    after it, whether the call returns or raises. *)
Theorem addPlayer_keeps_characters_distinct (player : Player) (w : World) :
  NoDup (map player_id (w_players w)) ->
  NoDup (map held (players_of (game_id (w_game w)) w)) ->
  let w' := fst (addPlayer player w) in
  NoDup (map held (players_of (game_id (w_game w')) w')).
Proof.
  intros Hids Hchars w'. unfold w'. clear w'.
  destruct (isUserInGame (user player) w) eqn:Hu.
  { rewrite (addPlayer_raises player w (or_introl Hu)). exact Hchars. }
  destruct (isCharacterInGame (player_character player) w) eqn:Hc.
  { rewrite (addPlayer_raises player w (or_intror Hc)). exact Hchars. }
  rewrite (addPlayer_run player w Hu Hc). simpl fst.
  apply not_taken in Hc. fold (held player) in Hc.
  unfold joined, players_of, save_player in *. simpl.
  set (gid := game_id (w_game w)) in *.
  set (p' := set_currentGame (Some gid) player).
  assert (Hp' : in_game gid p' = true) by (unfold in_game; simpl; apply Nat.eqb_refl).
  destruct (has_key player_id (player_id p') (w_players w)) eqn:Hk.
  - destruct (upsert_split player_id p' (w_players w) Hids Hk)
      as (front & old & back & Hw & _ & Hup).
    rewrite Hup. rewrite Hw in Hchars, Hc.
    rewrite filter_app, map_app in *. simpl in *. rewrite Hp'. simpl.
    destruct (in_game gid old).
    + simpl in *. apply NoDup_remove_1 in Hchars as Hrest.
      apply (Permutation_NoDup (Permutation_middle _ _ _)). constructor; [|assumption].
      intros Hin. apply Hc. apply in_app_or in Hin as [Hin|Hin];
        apply in_or_app; [left|right; right]; assumption.
    + apply (Permutation_NoDup (Permutation_middle _ _ _)). constructor; assumption.
  - unfold upsert. rewrite Hk, filter_app, map_app. simpl. rewrite Hp'. simpl.
    apply NoDup_snoc; assumption.
Qed.

Lemma addPlayer_keeps_characters_distinct_witness :
  let w := sample [] [] in
  let carol := mkPlayer 3 (Some (mkUser 3 "carol")) false hall None
                        (mkCharacter (mkCard 8 "Scarlet") hall "red") 0 in
  let w' := fst (addPlayer carol w) in
  NoDup (map held (players_of (game_id (w_game w')) w')).
Proof.
  intros w carol. apply (@addPlayer_keeps_characters_distinct carol w).
  - simpl. repeat constructor; simpl; intuition discriminate.
  - simpl. repeat constructor; simpl; intuition discriminate.
Defined.

(** A player that joins gets a sheet: when [addPlayer] passes its two
    checks for a player that has no sheet in the game yet, it returns,
    [getDetectiveSheet] then finds the player's sheet, and that sheet has
    exactly one item per card of the registry, unchecked, not dealt and not
    manually checked. *)
Theorem addPlayer_gives_sheet (player : Player) (w : World) :
  isUserInGame (user player) w = false ->
  isCharacterInGame (player_character player) w = false ->
  (forall ds, In ds (w_sheets w) -> sheet_game ds = game_id (w_game w) ->
              sheet_player ds <> player_id player) ->
  (forall si, In si (w_items w) -> In (detectiveSheet si) (map sheet_id (w_sheets w))) ->
  NoDup (map card_id (w_cards w)) ->
  exists w' ds,
    addPlayer player w = (w', Return tt)
    /\ getDetectiveSheet (set_currentGame (Some (game_id (w_game w))) player) w'
       = (w', Return ds)
    /\ forall c, In c (w_cards w) ->
         exists si, filter (item_of ds c) (w_items w') = [si]
                    /\ checked si = false /\ initiallyDealt si = false
                    /\ manuallyChecked si = false.
Proof.
  intros Hu Hc Hnew Hfk Hcards.
  set (gid := game_id (w_game w)) in *.
  set (k := next_id (map sheet_id (w_sheets w))).
  exists (joined player w), (mkDetectiveSheet k gid (player_id player)).
  split; [now apply addPlayer_run|]. split.
  - unfold getDetectiveSheet, joined. simpl. fold gid. fold k.
    rewrite filter_app. simpl. rewrite !Nat.eqb_refl. simpl.
    rewrite filter_none; [reflexivity|].
    intros ds Hds. destruct (Nat.eqb_spec (sheet_game ds) gid) as [E|E]; [|reflexivity].
    simpl. apply Nat.eqb_neq. now apply Hnew.
  - intros c Hcin. unfold joined. simpl w_items. fold gid. fold k.
    assert (Hnone : forall r, In r (w_items w) -> detectiveSheet r <> k).
    { intros r Hr E. apply (next_id_fresh (map sheet_id (w_sheets w))).
      fold k. rewrite <- E. now apply Hfk. }
    assert (Hone : length (filter (item_of (mkDetectiveSheet k gid (player_id player)) c)
                                  (add_items k (w_cards w) (w_items w))) = 1).
    { rewrite (add_items_count (mkDetectiveSheet k gid (player_id player)) c).
      rewrite (filter_none (item_of _ c)).
      - simpl. now rewrite (filter_key card_id _ _ Hcards Hcin).
      - intros r Hr. unfold item_of. simpl. apply Hnone in Hr.
        apply Nat.eqb_neq in Hr. now rewrite Hr. }
    destruct (filter_singleton _ _ Hone) as (si & Hsi). exists si.
    split; [assumption|].
    assert (Hin : In si (filter (item_of (mkDetectiveSheet k gid (player_id player)) c)
                                (add_items k (w_cards w) (w_items w))))
      by (rewrite Hsi; simpl; auto).
    apply filter_In in Hin as (Hin & Hof).
    apply add_items_blank in Hin as [Hin|Hin]; [|tauto].
    exfalso. apply (Hnone si Hin). unfold item_of in Hof. simpl in Hof.
    apply andb_true_iff in Hof as (Hof & _). now apply Nat.eqb_eq.
Qed.

Lemma addPlayer_gives_sheet_witness :
  let w := sample [] [] in
  let carol := mkPlayer 3 (Some (mkUser 3 "carol")) false hall None
                        (mkCharacter (mkCard 8 "Scarlet") hall "red") 0 in
  exists w' ds,
    addPlayer carol w = (w', Return tt)
    /\ getDetectiveSheet (set_currentGame (Some (game_id (w_game w))) carol) w'
       = (w', Return ds)
    /\ forall c, In c (w_cards w) ->
         exists si, filter (item_of ds c) (w_items w') = [si]
                    /\ checked si = false /\ initiallyDealt si = false
                    /\ manuallyChecked si = false.
Proof.
  intros w carol. apply (@addPlayer_gives_sheet carol w).
  - reflexivity.
  - reflexivity.
  - intros ds Hds _. simpl in Hds.
    destruct Hds as [<-|[<-|[]]]; simpl; discriminate.
  - intros si [].
  - simpl. repeat constructor; simpl; intuition discriminate.
Defined.

(** ** Ending a turn *)

Lemma Player_compare_refl (p : Player) : Player_compare p p = true.
Proof. unfold Player_compare. destruct (user p); [apply Nat.eqb_refl|reflexivity]. Qed.

Lemma first_match_at (p : Player) (players : list Player) (s i : nat) :
  NoDup players ->
  (forall a, In a players -> Player_compare a p = true -> a = p) ->
  nth_error players i = Some p ->
  first_match p players s = Some (s + i).
Proof.
  revert s i. induction players as [|x rest IH]; intros s i Hnd Hinj Hi.
  - now destruct i.
  - inversion Hnd as [|? ? Hx Hrest]; subst. destruct i as [|j]; simpl in *.
    + injection Hi as ->. now rewrite Player_compare_refl, Nat.add_0_r.
    + destruct (Player_compare x p) eqn:E.
      * exfalso. apply Hx. rewrite (Hinj x (or_introl eq_refl) E).
        eapply nth_error_In; eassumption.
      * rewrite (IH (S s) j Hrest); [f_equal; lia| |assumption].
        intros a Ha. apply Hinj. auto.
Qed.

Lemma first_match_none (p : Player) (players : list Player) (s : nat) :
  (forall a, In a players -> Player_compare a p = false) ->
  first_match p players s = None.
Proof.
  revert s. induction players as [|x rest IH]; intros s H; simpl; [reflexivity|].
  rewrite (H x (or_introl eq_refl)). apply IH. intros a Ha. apply H. simpl; auto.
Qed.

(** [endTurn] passes the turn on in the order of the roster and wraps
    around: when the players of the game can be told apart by their users
    and the player of the current turn stands at position [i] of the
    roster, a new turn is stored for the player at position [(i + 1) mod n]
    (the first one after the last) and becomes the current turn. *)
Theorem endTurn_next_player (self cur : Turn) (p : Player) (i : nat) (w : World) :
  let roster := players_of (game_id (w_game w)) w in
  let k := next_id (map turn_id (w_turns w)) in
  turn_game self = game_id (w_game w) ->
  currentTurn (w_game w) = Some (turn_id cur) ->
  NoDup (map turn_id (w_turns w)) -> In cur (w_turns w) ->
  NoDup (map player_id (w_players w)) ->
  player_id p = turn_player cur ->
  nth_error roster i = Some p ->
  (forall a, In a roster -> Player_compare a p = true -> a = p) ->
  endTurn self w
  = (with_game (set_currentTurn (Some k) (w_game w))
       (with_turns
          (w_turns w ++ [mkTurn k (player_id (nth ((i + 1) mod length roster) roster p))
                                (game_id (w_game w))])
          w),
     Return tt).
Proof.
  intros roster k Hg Hcur Hnt Ht Hnp Hid Hi Hinj.
  assert (Hproster : In p roster) by (eapply nth_error_In; eassumption).
  assert (Hp : In p (w_players w)) by (unfold roster, players_of in Hproster;
                                        now apply filter_In in Hproster).
  assert (Hnd : NoDup roster).
  { apply (NoDup_map_inv player_id). unfold roster, players_of.
    now apply NoDup_map_filter. }
  assert (Hlen : 0 < length roster) by (destruct roster; [contradiction|simpl; lia]).
  unfold endTurn. rewrite bind_run. unfold get_game. rewrite Hg, Nat.eqb_refl.
  rewrite bind_run, Hcur, (get_turn_stored _ _ Hnt Ht).
  rewrite bind_run, <- Hid, (get_player_stored _ _ Hnp Hp).
  rewrite bind_run. unfold get at 1. fold roster.
  rewrite (@first_match_at p roster 0 i Hnd Hinj Hi). simpl (0 + i).
  assert (Hlt : (i + 1) mod length roster < length roster)
    by (apply Nat.mod_upper_bound; lia).
  rewrite (nth_error_nth' roster p Hlt).
  reflexivity.
Qed.

Lemma endTurn_next_player_witness :
  let w := sample [] [] in
  let second_turn := mkTurn 1 2 1 in
  let w2 := with_turns [second_turn] w in
  endTurn second_turn w2
  = (with_game (set_currentTurn (Some 2) (w_game w2))
       (with_turns (w_turns w2 ++ [mkTurn 2 (player_id alice) 1]) w2),
     Return tt).
Proof.
  intros w second_turn w2.
  apply (@endTurn_next_player second_turn second_turn bob 1 w2).
  - reflexivity.
  - reflexivity.
  - simpl. repeat constructor; simpl; intuition discriminate.
  - simpl; auto.
  - simpl. repeat constructor; simpl; intuition discriminate.
  - reflexivity.
  - reflexivity.
  - intros a [<-|[<-|[]]]; simpl; intros H; [discriminate|reflexivity].
Defined.

(** [endTurn] needs the current player in the roster: when no player of
    the game compares equal to the player of the current turn (an empty
    roster included), the loop leaves [next_player] unassigned, the call
    raises UnboundLocalError, and nothing is written. *)
Theorem endTurn_outside_roster (self cur : Turn) (p : Player) (w : World) :
  turn_game self = game_id (w_game w) ->
  currentTurn (w_game w) = Some (turn_id cur) ->
  NoDup (map turn_id (w_turns w)) -> In cur (w_turns w) ->
  NoDup (map player_id (w_players w)) -> In p (w_players w) ->
  player_id p = turn_player cur ->
  (forall a, In a (players_of (game_id (w_game w)) w) -> Player_compare a p = false) ->
  endTurn self w = (w, Raise UnboundLocalError).
Proof.
  intros Hg Hcur Hnt Ht Hnp Hp Hid Hnone.
  unfold endTurn. rewrite bind_run. unfold get_game. rewrite Hg, Nat.eqb_refl.
  rewrite bind_run, Hcur, (get_turn_stored _ _ Hnt Ht).
  rewrite bind_run, <- Hid, (get_player_stored _ _ Hnp Hp).
  rewrite bind_run. unfold get at 1.
  now rewrite (@first_match_none p _ 0 Hnone).
Qed.

Lemma endTurn_outside_roster_witness :
  let visitor := mkPlayer 3 (Some (mkUser 3 "carol")) false hall None plum 0 in
  let w := with_players [alice; bob; visitor] (with_turns [mkTurn 1 3 1] (sample [] [])) in
  endTurn (mkTurn 1 3 1) w = (w, Raise UnboundLocalError).
Proof.
  intros visitor w.
  apply (@endTurn_outside_roster (mkTurn 1 3 1) (mkTurn 1 3 1) visitor w).
  - reflexivity.
  - reflexivity.
  - simpl. repeat constructor; simpl; intuition discriminate.
  - simpl; auto.
  - simpl. repeat constructor; simpl; intuition discriminate.
  - simpl; auto.
  - reflexivity.
  - intros a [<-|[<-|[]]]; reflexivity.
Defined.

(** ** The snapshot: when it can be built *)

(** A player the snapshot can show: a non-user player, or one with a user. *)
Definition presentable (q : Player) : Prop :=
  nonUserPlayer q = true \/ user q <> None.

Lemma playerstates_returns (players : list Player) :
  (forall q, In q players -> presentable q) ->
  exists states, playerstates players = Return states
                 /\ length states = length players.
Proof.
  induction players as [|q players IH]; intros H.
  - exists []. split; reflexivity.
  - destruct IH as (states & E & Hl); [intros; apply H; simpl; auto|].
    assert (Hq : exists pData, playerstate q = Return pData).
    { unfold playerstate. destruct (H q (or_introl eq_refl)) as [Hn|Hu].
      - rewrite Hn. eexists; reflexivity.
      - destruct (nonUserPlayer q); [eexists; reflexivity|].
        destruct (user q); [eexists; reflexivity|congruence]. }
    destruct Hq as (pData & Eq). exists (pData :: states).
    simpl. rewrite Eq, E. simpl. split; [reflexivity|now rewrite Hl].
Qed.

Lemma playerstates_raises (players : list Player) (q : Player) :
  In q players -> nonUserPlayer q = false -> user q = None ->
  playerstates players = Raise AttributeError.
Proof.
  intros Hin Hn Hu. induction players as [|x players IH]; [contradiction|].
  simpl. destruct (playerstate x) as [pData|e] eqn:Ex.
  - simpl. destruct Hin as [->|Hin].
    + unfold playerstate in Ex. rewrite Hn, Hu in Ex. discriminate.
    + now rewrite (IH Hin).
  - simpl. unfold playerstate in Ex.
    destruct (nonUserPlayer x); [discriminate|].
    destruct (user x); [discriminate|]. simpl in Ex. congruence.
Qed.

(** [gameStateJSON] returns whenever the host has a user and every player
    of the game is a non-user player or has a user; the snapshot then has
    its five entries and one player state per player of the game. *)
Theorem gameStateJSON_returns (player host : Player) (hu : User) (w : World) :
  NoDup (map player_id (w_players w)) -> In host (w_players w) ->
  player_id host = hostPlayer (w_game w) -> user host = Some hu ->
  (forall q, In q (players_of (game_id (w_game w)) w) -> presentable q) ->
  exists states,
    gameStateJSON player w
    = Return (JDict
        [ ("game_sequence"%string, JInt (currentSequence (w_game w)));
          ("isHostPlayer"%string, JBool (player_id host =? player_id player));
          ("hostplayer"%string,
             JDict [ ("player_id"%string, JInt (Z.of_nat (player_id host)));
                     ("username"%string, JStr (username hu)) ]);
          ("status"%string, JInt (status (w_game w)));
          ("playerstates"%string, JList states) ])
    /\ length states = length (players_of (game_id (w_game w)) w).
Proof.
  intros Hnd Hin Hid Hu Hall.
  destruct (playerstates_returns _ Hall) as (states & E & Hl).
  exists states. split; [|assumption].
  unfold gameStateJSON. rewrite <- Hid, (get_player_stored _ _ Hnd Hin). simpl.
  rewrite Hu. simpl. now rewrite E.
Qed.

Lemma gameStateJSON_returns_witness :
  let w := sample [] [] in
  exists states,
    gameStateJSON bob w
    = Return (JDict
        [ ("game_sequence"%string, JInt (currentSequence (w_game w)));
          ("isHostPlayer"%string, JBool (player_id alice =? player_id bob));
          ("hostplayer"%string,
             JDict [ ("player_id"%string, JInt (Z.of_nat (player_id alice)));
                     ("username"%string, JStr (username (mkUser 1 "alice"))) ]);
          ("status"%string, JInt (status (w_game w)));
          ("playerstates"%string, JList states) ])
    /\ length states = length (players_of (game_id (w_game w)) w).
Proof.
  intros w. apply (@gameStateJSON_returns bob alice (mkUser 1 "alice") w).
  - simpl. repeat constructor; simpl; intuition discriminate.
  - simpl; auto.
  - reflexivity.
  - reflexivity.
  - intros q [<-|[<-|[]]]; right; discriminate.
Defined.

(** One player of the game that is not flagged as a non-user player and
    has no user is enough to lose the whole snapshot: [gameStateJSON]
    raises AttributeError for every requesting player. *)
Theorem gameStateJSON_userless_player (player host q : Player) (hu : User)
    (w : World) :
  NoDup (map player_id (w_players w)) -> In host (w_players w) ->
  player_id host = hostPlayer (w_game w) -> user host = Some hu ->
  In q (players_of (game_id (w_game w)) w) ->
  nonUserPlayer q = false -> user q = None ->
  gameStateJSON player w = Raise AttributeError.
Proof.
  intros Hnd Hin Hid Hu Hq Hn Hnone.
  unfold gameStateJSON. rewrite <- Hid, (get_player_stored _ _ Hnd Hin). simpl.
  rewrite Hu. simpl. now rewrite (playerstates_raises _ q Hq Hn Hnone).
Qed.

Lemma gameStateJSON_userless_player_witness :
  let ghost := mkPlayer 3 None false hall (Some 1) plum 0 in
  gameStateJSON bob (with_players [alice; bob; ghost] (sample [] []))
  = Raise AttributeError.
Proof.
  intros ghost.
  apply (@gameStateJSON_userless_player bob alice ghost (mkUser 1 "alice")
           (with_players [alice; bob; ghost] (sample [] []))).
  - simpl. repeat constructor; simpl; intuition discriminate.
  - simpl; auto.
  - reflexivity.
  - reflexivity.
  - simpl; auto.
  - reflexivity.
  - reflexivity.
Defined.

(** ** Starting a game: the refusals *)

(** [startGame] refuses, in this order, a game whose status is not
    NotStarted, a game with fewer than two players, and a requesting user
    that is not the user of the host; each refusal is a RuntimeError with
    its own message and writes nothing. *)
Theorem startGame_refuses (shuffle : list Card -> list Card) (usr : User)
    (host : Player) (w : World) :
  NoDup (map player_id (w_players w)) -> In host (w_players w) ->
  player_id host = hostPlayer (w_game w) ->
  (status (w_game w) <> 0%Z ->
   startGame shuffle usr w = (w, Raise (RuntimeError "Game already started")))
  /\ (status (w_game w) = 0%Z ->
      length (players_of (game_id (w_game w)) w) < 2 ->
      startGame shuffle usr w
      = (w, Raise (RuntimeError "Game must have at least 2 players")))
  /\ (status (w_game w) = 0%Z ->
      2 <= length (players_of (game_id (w_game w)) w) ->
      user_is (user host) usr = false ->
      startGame shuffle usr w
      = (w, Raise (RuntimeError "Game can only be started by host"))).
Proof.
  intros Hnd Hin Hid.
  split; [|split]; intros Hst; unfold startGame; rewrite bind_run; unfold get at 1;
    rewrite bind_run.
  - apply Z.eqb_neq in Hst. now rewrite Hst.
  - intros Hlt. apply Z.eqb_eq in Hst. apply Nat.ltb_lt in Hlt.
    now rewrite Hst, Hlt.
  - intros Hge Hu. apply Z.eqb_eq in Hst. rewrite Hst. cbn [negb].
    assert (Hlt : (length (players_of (game_id (w_game w)) w) <? 2) = false)
      by (apply Nat.ltb_ge; assumption).
    rewrite Hlt. cbn iota.
    rewrite bind_run, <- Hid, (get_player_stored _ _ Hnd Hin), Hu.
    reflexivity.
Qed.

Lemma startGame_refuses_witness :
  let w := sample [] [] in
  (status (w_game w) <> 0%Z ->
   startGame (@rev Card) (mkUser 1 "alice") w
   = (w, Raise (RuntimeError "Game already started")))
  /\ (status (w_game w) = 0%Z ->
      length (players_of (game_id (w_game w)) w) < 2 ->
      startGame (@rev Card) (mkUser 1 "alice") w
      = (w, Raise (RuntimeError "Game must have at least 2 players")))
  /\ (status (w_game w) = 0%Z ->
      2 <= length (players_of (game_id (w_game w)) w) ->
      user_is (user alice) (mkUser 1 "alice") = false ->
      startGame (@rev Card) (mkUser 1 "alice") w
      = (w, Raise (RuntimeError "Game can only be started by host"))).
Proof.
  intros w. apply (@startGame_refuses (@rev Card) (mkUser 1 "alice") alice w).
  - simpl. repeat constructor; simpl; intuition discriminate.
  - simpl; auto.
  - reflexivity.
Defined.

(** ** Starting a game *)

(** The loop of [startGame] over the unused characters, as a pass over
    the table of players. *)
Fixpoint add_npcs (gid : nat) (characters : list Character) (players : list Player)
  : list Player :=
  match characters with
  | [] => players
  | c :: rest =>
      add_npcs gid rest
        (players ++ [mkPlayer (next_id (map player_id players)) None true
                              (defaultSpace c) (Some gid) c 0%Z])
  end.

Lemma add_npcs_run (gid : nat) (characters : list Character) (w : World) :
  for_each characters
    (fun c => modify (fun w =>
       with_players
         (w_players w ++ [mkPlayer (next_id (map player_id (w_players w))) None true
                                   (defaultSpace c) (Some gid) c 0%Z])
         w)) w
  = (with_players (add_npcs gid characters (w_players w)) w, Return tt).
Proof.
  revert w. induction characters as [|c rest IH]; intros w.
  - simpl. unfold ret. now destruct w.
  - simpl for_each. rewrite bind_run. unfold modify at 1. rewrite IH.
    now destruct w.
Qed.

(** A player created for an unused character. *)
Definition stand_in (gid : nat) (characters : list Character) (p : Player) : Prop :=
  user p = None /\ nonUserPlayer p = true /\ currentGame p = Some gid
  /\ currentSpace p = defaultSpace (player_character p)
  /\ In (player_character p) characters.

Lemma add_npcs_appends (gid : nat) (characters : list Character)
    (players : list Player) :
  exists extra,
    add_npcs gid characters players = players ++ extra
    /\ (forall p, In p extra -> stand_in gid characters p)
    /\ (forall c, In c characters -> exists p, In p extra /\ player_character p = c).
Proof.
  revert players. induction characters as [|c rest IH]; intros players; simpl.
  - exists []. rewrite app_nil_r. repeat split; contradiction.
  - destruct (IH (players ++ [mkPlayer (next_id (map player_id players)) None true
                                       (defaultSpace c) (Some gid) c 0%Z]))
      as (extra & E & Hall & Hevery).
    eexists (_ :: extra). split; [rewrite E, <- app_assoc; reflexivity|]. split.
    + intros p [<-|Hp].
      * unfold stand_in. simpl. auto 6.
      * destruct (Hall p Hp) as (H1 & H2 & H3 & H4 & H5).
        unfold stand_in. simpl. auto 6.
    + intros c' [<-|Hc'].
      * eexists. split; [left; reflexivity|reflexivity].
      * destruct (Hevery c' Hc') as (p & Hp & Hpc). exists p. simpl; auto.
Qed.

Lemma holder_in_game (c : Character) (w : World) :
  isCharacterInGame c w = true ->
  exists q, In q (w_players w) /\ in_game (game_id (w_game w)) q = true
            /\ held q = card_id (character_card c).
Proof.
  unfold isCharacterInGame. intros H.
  destruct (filter _ (w_players w)) as [|q l] eqn:E; [discriminate|].
  assert (Hq : In q (filter (fun p => in_game (game_id (w_game w)) p
                                      && (card_id (character_card (player_character p))
                                          =? card_id (character_card c)))
                            (w_players w))) by (rewrite E; simpl; auto).
  apply filter_In in Hq as (Hq & Hb). apply andb_true_iff in Hb as (Hg & Hh).
  exists q. repeat split; [assumption..|]. now apply Nat.eqb_eq.
Qed.

Lemma deal_run (shuffle : list Card -> list Card) (w : World) :
  Permutation (cards_outside_caseFile w) (shuffle (cards_outside_caseFile w)) ->
  NoDup (map item_id (w_items w)) ->
  (forall ds c, In ds (sheets_of_game w) -> In c (w_cards w) ->
                length (filter (item_of ds c) (w_items w)) = 1) ->
  1 <= length (sheets_of_game w) ->
  deal shuffle w
  = (with_items
       (map (fun si => if marked (sheets_of_game w) (shuffle (cards_outside_caseFile w))
                            (seq 0 (length (shuffle (cards_outside_caseFile w)))) si
                       then set_flags true true false si else si)
            (w_items w)) w,
     Return tt).
Proof.
  intros Hperm Hitems Hone HN.
  assert (Hne : sheets_of_game w <> [])
    by (destruct (sheets_of_game w); simpl in *; [lia|congruence]).
  assert (Hcomplete : complete (sheets_of_game w) (shuffle (cards_outside_caseFile w))
                               (w_items w)).
  { intros ds c Hds Hc. apply Hone; [assumption|].
    apply (Permutation_in _ (Permutation_sym Hperm)) in Hc.
    unfold cards_outside_caseFile in Hc.
    apply filter_In in Hc as (Hc & _). apply filter_In in Hc as (Hc & _).
    now apply filter_In in Hc as (Hc & _). }
  assert (Hrun : deal shuffle w
                 = for_each (seq 0 (length (shuffle (cards_outside_caseFile w))))
                            (deal_one (sheets_of_game w)
                                      (shuffle (cards_outside_caseFile w))) w)
    by reflexivity.
  rewrite Hrun. apply deal_rounds; try assumption.
  intros i Hi. apply in_seq in Hi. lia.
Qed.

(** The world that a successful [startGame] leaves. *)
Definition started (shuffle : list Card -> list Card) (host : Player) (w : World)
  : World :=
  let gid := game_id (w_game w) in
  let k := next_id (map turn_id (w_turns w)) in
  let cardList := shuffle (cards_outside_caseFile w) in
  with_game (stamp (w_clock w)
               (set_currentTurn (Some k) (set_status STARTED (w_game w))))
    (with_players (add_npcs gid (unusedCharacters w) (w_players w))
       (with_items
          (map (fun si => if marked (sheets_of_game w) cardList
                               (seq 0 (length cardList)) si
                          then set_flags true true false si else si)
               (w_items w))
          (with_turns (w_turns w ++ [mkTurn k (player_id host) gid]) w))).

Lemma startGame_run (shuffle : list Card -> list Card) (usr : User)
    (host : Player) (w : World) :
  status (w_game w) = 0%Z ->
  2 <= length (players_of (game_id (w_game w)) w) ->
  NoDup (map player_id (w_players w)) ->
  player_id host = hostPlayer (w_game w) ->
  filter (fun p => user_is (user p) usr && in_game (game_id (w_game w)) p)
         (w_players w) = [host] ->
  (forall t, In t (w_turns w) -> turn_game t = game_id (w_game w) ->
             turn_player t <> player_id host) ->
  Permutation (cards_outside_caseFile w) (shuffle (cards_outside_caseFile w)) ->
  NoDup (map item_id (w_items w)) ->
  (forall ds c, In ds (sheets_of_game w) -> In c (w_cards w) ->
                length (filter (item_of ds c) (w_items w)) = 1) ->
  1 <= length (sheets_of_game w) ->
  startGame shuffle usr w = (started shuffle host w, Return tt).
Proof.
  intros Hst Hge Hnd Hid Hmine Hturns Hperm Hitems Hone Hsheets.
  assert (Hhost : In host (filter (fun p => user_is (user p) usr
                                            && in_game (game_id (w_game w)) p)
                                  (w_players w))) by (rewrite Hmine; simpl; auto).
  apply filter_In in Hhost as (Hin & Hb). apply andb_true_iff in Hb as (Hu & Hg).
  apply Z.eqb_eq in Hst. apply Nat.ltb_ge in Hge.
  unfold startGame. rewrite bind_run. unfold get at 1. rewrite bind_run.
  rewrite Hst. cbn [negb]. rewrite Hge. cbn iota.
  rewrite bind_run, <- Hid, (get_player_stored _ _ Hnd Hin), Hu. cbn [negb].
  unfold modify at 1.
  set (w1 := with_game (set_status STARTED (w_game w)) w).
  rewrite bind_run, (get_player_stored host w1 Hnd Hin).
  rewrite bind_run. unfold get at 1. rewrite bind_run. unfold modify at 1.
  rewrite bind_run. unfold modify at 1. rewrite bind_run.
  set (k := next_id (map turn_id (w_turns w1))).
  set (w3 := with_game _ (with_turns _ w1)).
  rewrite (deal_run shuffle w3 Hperm Hitems Hone Hsheets).
  rewrite bind_run. unfold get at 1. rewrite bind_run.
  rewrite add_npcs_run.
  rewrite bind_run. unfold get at 1. rewrite bind_run. unfold lift at 1.
  change (unusedCharacters _) with (unusedCharacters w).
  subst w3 k w1. cbn [w_players w_turns with_players with_items with_game with_turns].
  assert (Hf : filter (fun p => user_is (user p) usr && in_game (game_id (w_game w)) p)
                      (add_npcs (game_id (w_game w)) (unusedCharacters w) (w_players w))
               = [host]).
  { destruct (add_npcs_appends (game_id (w_game w)) (unusedCharacters w) (w_players w))
      as (extra & E & Hall & _).
    rewrite E, filter_app, Hmine, (filter_none _ extra); [reflexivity|].
    intros p Hp. destruct (Hall p Hp) as (Hnone & _). now rewrite Hnone. }
  rewrite Hf. cbn [objects_get]. rewrite bind_run. unfold lift at 1.
  cbn [w_players w_turns with_players with_items with_game with_turns].
  rewrite filter_app, (filter_none _ (w_turns w)).
  2:{ intros t Ht. destruct (Nat.eqb_spec (turn_game t) (game_id (w_game w))) as [E|E].
      - apply (Hturns t Ht) in E. apply Nat.eqb_neq in E. now rewrite E.
      - apply andb_false_r. }
  cbn [filter turn_player turn_game app]. rewrite !Nat.eqb_refl.
  cbn [andb objects_get]. reflexivity.
Qed.

(** [startGame] on a lobby: the game is not started, has two players or
    more, the requesting user owns exactly one player of the game, the
    host, for whom the game has no turn yet, and the sheets are the
    default ones.  Then [startGame] returns; the game is started and one
    update further; the host has the current turn, the one new turn; every
    character of the registry is in the game; the players from before are
    all there, and every other player is a non-user stand-in for a
    registered character, on its default space. *)
Theorem startGame_starts (shuffle : list Card -> list Card) (usr : User)
    (host : Player) (w : World) :
  status (w_game w) = 0%Z ->
  2 <= length (players_of (game_id (w_game w)) w) ->
  NoDup (map player_id (w_players w)) ->
  player_id host = hostPlayer (w_game w) ->
  filter (fun p => user_is (user p) usr && in_game (game_id (w_game w)) p)
         (w_players w) = [host] ->
  (forall t, In t (w_turns w) -> turn_game t = game_id (w_game w) ->
             turn_player t <> player_id host) ->
  Permutation (cards_outside_caseFile w) (shuffle (cards_outside_caseFile w)) ->
  NoDup (map item_id (w_items w)) ->
  (forall ds c, In ds (sheets_of_game w) -> In c (w_cards w) ->
                length (filter (item_of ds c) (w_items w)) = 1) ->
  1 <= length (sheets_of_game w) ->
  exists w',
    startGame shuffle usr w = (w', Return tt)
    /\ status (w_game w') = STARTED
    /\ sequence w' = (sequence w + 1)%Z
    /\ currentTurn (w_game w') = Some (next_id (map turn_id (w_turns w)))
    /\ w_turns w'
       = w_turns w ++ [mkTurn (next_id (map turn_id (w_turns w))) (player_id host)
                              (game_id (w_game w))]
    /\ (forall c, In c (w_characters w) -> isCharacterInGame c w' = true)
    /\ (forall p, In p (w_players w) -> In p (w_players w'))
    /\ (forall p, In p (w_players w') ->
                  In p (w_players w)
                  \/ stand_in (game_id (w_game w)) (w_characters w) p).
Proof.
  intros Hst Hge Hnd Hid Hmine Hturns Hperm Hitems Hone Hsheets.
  exists (started shuffle host w).
  split; [apply (@startGame_run shuffle usr host w); assumption|].
  destruct (add_npcs_appends (game_id (w_game w)) (unusedCharacters w) (w_players w))
    as (extra & E & Hall & Hevery).
  unfold started, sequence. cbn [w_game w_turns w_players with_game with_players
                                 with_items with_turns stamp status currentSequence
                                 currentTurn set_currentTurn set_status].
  repeat (split; [reflexivity|]). rewrite E. split; [|split].
  - intros c Hc. destruct (isCharacterInGame c w) eqn:Hin.
    + destruct (holder_in_game c w Hin) as (q & Hq & Hg & Hh).
      apply (taken_in_game c q); [apply in_or_app; left; exact Hq|exact Hg|exact Hh].
    + assert (Hun : In c (unusedCharacters w)).
      { unfold unusedCharacters, isCharacterInGame, players_of in *.
        rewrite filter_In, negb_true_iff, existsb_key_filter. split; assumption. }
      destruct (Hevery c Hun) as (p & Hp & Hpc).
      destruct (Hall p Hp) as (_ & _ & Hgame & _).
      apply (taken_in_game c p); [apply in_or_app; right; exact Hp| |].
      * cbn [w_game with_game game_id stamp]. unfold in_game. rewrite Hgame.
        apply Nat.eqb_refl.
      * unfold held. now rewrite Hpc.
  - intros p Hp. apply in_or_app. now left.
  - intros p Hp. apply in_app_or in Hp as [Hp|Hp]; [now left|right].
    destruct (Hall p Hp) as (H1 & H2 & H3 & H4 & H5).
    unfold stand_in. repeat split; try assumption.
    unfold unusedCharacters in H5. now apply filter_In in H5.
Qed.

(** The sample game before it is started: no turn yet, default sheets. *)
Definition lobby : World :=
  with_turns []
    (with_game (set_currentTurn None (set_status NOT_STARTED (w_game sample_with_sheets)))
               sample_with_sheets).

Lemma startGame_starts_witness :
  let w := lobby in
  let usr := mkUser 1 "alice" in
  exists w',
    startGame (@rev Card) usr w = (w', Return tt)
    /\ status (w_game w') = STARTED
    /\ sequence w' = (sequence w + 1)%Z
    /\ currentTurn (w_game w') = Some (next_id (map turn_id (w_turns w)))
    /\ w_turns w'
       = w_turns w ++ [mkTurn (next_id (map turn_id (w_turns w))) (player_id alice)
                              (game_id (w_game w))]
    /\ (forall c, In c (w_characters w) -> isCharacterInGame c w' = true)
    /\ (forall p, In p (w_players w) -> In p (w_players w'))
    /\ (forall p, In p (w_players w') ->
                  In p (w_players w)
                  \/ stand_in (game_id (w_game w)) (w_characters w) p).
Proof.
  intros w usr. apply (@startGame_starts (@rev Card) usr alice w).
  - reflexivity.
  - simpl. lia.
  - simpl. repeat constructor; simpl; intuition discriminate.
  - reflexivity.
  - reflexivity.
  - intros t [].
  - apply Permutation_rev.
  - simpl. repeat constructor; simpl; intuition discriminate.
  - intros ds c Hds Hc. simpl in Hds, Hc.
    repeat (destruct Hds as [<-|Hds]); try contradiction;
      repeat (destruct Hc as [<-|Hc]); try contradiction; reflexivity.
  - simpl. lia.
Defined.

(** ** One winner *)

(** After [endGame] the winner is the only player of the game whose
    result is Won. *)
Theorem endGame_single_winner (winningPlayer : Player) (w : World) :
  NoDup (map player_id (w_players w)) -> In winningPlayer (w_players w) ->
  let w' := fst (endGame winningPlayer w) in
  forall q, In q (players_of (game_id (w_game w')) w') ->
            (gameResult q = WON <-> player_id q = player_id winningPlayer).
Proof.
  intros Hnd Hin w' q. unfold w'. rewrite (endGame_effect _ _ Hnd Hin).
  unfold players_of. cbn [fst w_game w_players with_game with_players game_id stamp].
  intros Hq. apply filter_In in Hq as (Hq & Hg).
  apply in_map_iff in Hq as (q0 & <- & Hq0). unfold won_by in *.
  destruct (Nat.eqb_spec (player_id q0) (player_id winningPlayer)) as [E|E].
  - simpl. split; [intros _; assumption|reflexivity].
  - destruct (in_game (game_id (w_game w)) q0) eqn:Hg0.
    + simpl. split; [discriminate|]. intros H. contradiction.
    + cbn [game_id set_status] in Hg. congruence.
Qed.

Lemma endGame_single_winner_witness :
  gameResult (set_gameResult LOST alice) = WON
  <-> player_id (set_gameResult LOST alice) = player_id bob.
Proof.
  apply (@endGame_single_winner bob (sample [] [])).
  - simpl. repeat constructor; simpl; intuition discriminate.
  - simpl; auto.
  - simpl; auto.
Defined.

(** ** Players without a user at the end of a turn *)

Lemma first_match_split (p q : Player) (front back : list Player) (s : nat) :
  (forall a, In a front -> Player_compare a p = false) ->
  Player_compare q p = true ->
  first_match p (front ++ q :: back) s = Some (s + length front).
Proof.
  revert s. induction front as [|x front IH]; intros s Hf Hq; simpl.
  - now rewrite Hq, Nat.add_0_r.
  - rewrite (Hf x (or_introl eq_refl)), IH; [f_equal; lia| |assumption].
    intros a Ha. apply Hf. simpl; auto.
Qed.

(** [Player.compare] cannot tell two players without a user apart, and
    [endTurn] finds the current player with it.  So after the turn of any
    player without a user the next turn goes to the player that follows
    the first user-less player of the roster, wherever in the roster the
    current player stands. *)
Theorem endTurn_after_userless (self cur : Turn) (p q : Player)
    (front back : list Player) (w : World) :
  let roster := players_of (game_id (w_game w)) w in
  let k := next_id (map turn_id (w_turns w)) in
  turn_game self = game_id (w_game w) ->
  currentTurn (w_game w) = Some (turn_id cur) ->
  NoDup (map turn_id (w_turns w)) -> In cur (w_turns w) ->
  NoDup (map player_id (w_players w)) -> In p (w_players w) ->
  player_id p = turn_player cur ->
  user p = None ->
  roster = front ++ q :: back ->
  (forall a, In a front -> user a <> None) -> user q = None ->
  endTurn self w
  = (with_game (set_currentTurn (Some k) (w_game w))
       (with_turns
          (w_turns w
           ++ [mkTurn k (player_id (nth ((length front + 1) mod length roster) roster q))
                      (game_id (w_game w))])
          w),
     Return tt).
Proof.
  intros roster k Hg Hcur Hnt Ht Hnp Hp Hid Hup Hroster Hfront Huq.
  unfold endTurn. rewrite bind_run. unfold get_game. rewrite Hg, Nat.eqb_refl.
  rewrite bind_run, Hcur, (get_turn_stored _ _ Hnt Ht).
  rewrite bind_run, <- Hid, (get_player_stored _ _ Hnp Hp).
  rewrite bind_run. unfold get at 1. fold roster.
  assert (Hfm : first_match p roster 0 = Some (length front)).
  { rewrite Hroster. apply (first_match_split p q front back 0).
    - intros a Ha. unfold Player_compare. rewrite Hup.
      specialize (Hfront a Ha). now destruct (user a).
    - unfold Player_compare. now rewrite Huq, Hup. }
  rewrite Hfm.
  assert (Hlen : 0 < length roster)
    by (rewrite Hroster, length_app; simpl; lia).
  assert (Hlt : (length front + 1) mod length roster < length roster)
    by (apply Nat.mod_upper_bound; lia).
  rewrite (nth_error_nth' roster q Hlt). reflexivity.
Qed.

Lemma endTurn_after_userless_witness :
  let butler := mkPlayer 3 None true hall (Some 1) plum 0 in
  let maid := mkPlayer 4 None true lounge (Some 1) green 0 in
  let w := with_players [alice; bob; butler; maid]
                        (with_turns [mkTurn 1 4 1] (sample [] [])) in
  endTurn (mkTurn 1 4 1) w
  = (with_game (set_currentTurn (Some 2) (w_game w))
       (with_turns (w_turns w ++ [mkTurn 2 (player_id maid) 1]) w),
     Return tt).
Proof.
  intros butler maid w.
  apply (@endTurn_after_userless (mkTurn 1 4 1) (mkTurn 1 4 1) maid butler
           [alice; bob] [maid] w).
  - reflexivity.
  - reflexivity.
  - simpl. repeat constructor; simpl; intuition discriminate.
  - simpl; auto.
  - simpl. repeat constructor; simpl; intuition discriminate.
  - simpl; auto 6.
  - reflexivity.
  - reflexivity.
  - reflexivity.
  - intros a [<-|[<-|[]]]; discriminate.
  - reflexivity.
Defined.

(** ** The deal without sheets *)

(** With no sheet in the game the deal has nobody to deal to: it returns
    at once when there is no card to deal, and raises ZeroDivisionError on
    the first card otherwise; in both cases nothing is written. *)
Theorem deal_without_sheets (shuffle : list Card -> list Card) (w : World) :
  sheets_of_game w = [] ->
  deal shuffle w
  = (w, if length (shuffle (cards_outside_caseFile w)) =? 0
        then Return tt else Raise ZeroDivisionError).
Proof.
  intros Hs. unfold deal. rewrite bind_run. unfold get at 1. rewrite Hs.
  destruct (length (shuffle (cards_outside_caseFile w))) as [|n]; [reflexivity|].
  rewrite <- cons_seq. reflexivity.
Qed.

Lemma deal_without_sheets_witness :
  let w := with_sheets [] (sample [] []) in
  deal (@rev Card) w
  = (w, if length (rev (cards_outside_caseFile w)) =? 0
        then Return tt else Raise ZeroDivisionError).
Proof.
  intros w. apply (@deal_without_sheets (@rev Card) w). reflexivity.
Defined.

(** ** A suggestion that cannot be carried out *)

(** [Suggestion.performAction] moves somebody only when its two queries
    find exactly one player and exactly one space: otherwise it raises,
    and it raises before anything is written. *)
Theorem Suggestion_performAction_all_or_nothing (turn : nat)
    (whoWhatWhere : WhoWhatWhere) (w : World) :
  length (holders whoWhatWhere w) <> 1
  \/ length (spaces_of (room whoWhatWhere) w) <> 1 ->
  exists e, Suggestion_performAction turn whoWhatWhere w = (w, Raise e).
Proof.
  intros H. unfold Suggestion_performAction. rewrite bind_run. unfold get_turn.
  destruct (objects_get (filter _ (w_turns w))) as [t|e]; [|eexists; reflexivity].
  rewrite bind_run. unfold get_game.
  destruct (game_id (w_game w) =? turn_game t) eqn:Eg; [|eexists; reflexivity].
  rewrite bind_run. unfold get at 1. rewrite bind_run. unfold lift at 1.
  apply Nat.eqb_eq in Eg. rewrite Eg. unfold holders, spaces_of in H.
  rewrite Eg in H.
  destruct (filter _ (w_players w)) as [|x [|y l]] eqn:Eh;
    try (eexists; reflexivity).
  cbn [objects_get]. rewrite bind_run. unfold lift at 1.
  destruct (filter _ (w_spaces w)) as [|s [|s' l']] eqn:Es;
    try (eexists; reflexivity).
  exfalso. destruct H as [H|H]; apply H; reflexivity.
Qed.

Lemma Suggestion_performAction_all_or_nothing_witness :
  let w := sample [] [] in
  let scarlet := mkCharacter (mkCard 8 "Scarlet") hall "red" in
  exists e, Suggestion_performAction 1 (mkWhoWhatWhere scarlet rope study) w
            = (w, Raise e).
Proof.
  intros w scarlet.
  apply (@Suggestion_performAction_all_or_nothing 1
           (mkWhoWhatWhere scarlet rope study) w).
  left. simpl. discriminate.
Defined.
